(** * An invoicing API over a relational store

    Shallow embedding of [app/routes/invoices.py], [app/routes/clients.py],
    [app/routes/products.py] and of the schema created by
    [migrations/002_invoicing_schema_and_seed.py].  The development goes on
    with the routers as [main.py] registers them, the two functions of the
    migration on a database file whose tables may be missing, the handlers
    of [app/routes/debug.py] that read the migrations and count the rows,
    and the test of [test_api.py].

    - Python [float] is IEEE binary64, taken from the Standard Library's
      executable specification [SpecFloat] (precision 53, emax 1024).
    - [decimal.Decimal] is a sign, a coefficient and an exponent, with the
      default context of 28 significant digits, rounding half even.
    - A table is the list of its rows in rowid order; a handler is a function
      from the store to a result and a store.
    - Python [int] is [Z].  SQLite's INTEGER is a 64-bit integer and the
      driver refuses wider values when it binds them; identifiers and
      pagination parameters are taken inside that range, the refusal is not
      part of this model.
    - The column [invoices.created_at] is filled by the store from its clock
      and is read by no handler; it is left out of the rows. *)

From Stdlib Require Import ZArith List String Ascii Bool Lia.
From Stdlib Require Import Sorting.Permutation Sorting.Sorted.
From Stdlib Require Import SpecFloat DecimalString.
Import ListNotations.
Open Scope Z_scope.

(** ** Binary64 numbers: Python's [float] *)

Definition prec : Z := 53.
Definition emax : Z := 1024.
Definition float := spec_float.

Definition float_mul : float -> float -> float := SFmul prec emax.
Definition float_add : float -> float -> float := SFadd prec emax.
Definition float_lt : float -> float -> bool := SFltb.
Definition float_le : float -> float -> bool := SFleb.
(** Python's [==] on floats: [-0.0 == 0.0], and [nan] equals nothing. *)
Definition float_eq : float -> float -> bool := SFeqb.

Definition isnan (x : float) : bool :=
  match x with S754_nan => true | _ => false end.

(** The integer nearest to [a / b], the even one on a tie ([0 <= a], [0 < b]). *)
Definition div_half_even (a b : Z) : Z :=
  let q := a / b in
  let r := a mod b in
  match 2 * r ?= b with
  | Lt => q
  | Gt => q + 1
  | Eq => if Z.even q then q else q + 1
  end.

(** The binary64 number nearest to [p / q], ties to even: the value of a
    decimal literal, and what the C library's [strtod] returns. *)
Definition float_of_ratio (s : bool) (p q : positive) : float :=
  let '(m, e, l) := SFdiv_core_binary prec emax (Zpos p) 0 (Zpos q) 0 in
  binary_round_aux prec emax s m e l.

Definition float_of_Z (n : Z) : float :=
  match n with
  | Z0 => S754_zero false
  | Zpos p => float_of_ratio false p 1
  | Zneg p => float_of_ratio true p 1
  end.

(** [round(x, ndigits)] for [0 <= ndigits]: the exact binary value is rounded
    half even to [ndigits] decimals, and that decimal is read back as the
    nearest float.  Zeros, infinities and [nan] round to themselves. *)
Definition round (x : float) (ndigits : Z) : float :=
  match x with
  | S754_finite s m e =>
      let num := Zpos m * 10 ^ ndigits * 2 ^ Z.max e 0 in
      let den := 2 ^ Z.max (- e) 0 in
      match div_half_even num den with
      | Zpos n => float_of_ratio s n (Z.to_pos (10 ^ ndigits))
      | _ => S754_zero s
      end
  | _ => x
  end.

(** Number of decimal digits of a positive integer, 0 otherwise. *)
Definition nb_digits (n : Z) : Z :=
  match n with
  | Zpos p => Z.of_nat (Decimal.nb_digits (Pos.to_uint p))
  | _ => 0
  end.

(** The position of the decimal point of [m * 2^e]:
    [10^(decpt-1) <= m * 2^e < 10^decpt]. *)
Definition decpt_of (m : positive) (e : Z) : Z :=
  let num := Zpos m * 2 ^ Z.max e 0 in
  let den := 2 ^ Z.max (- e) 0 in
  if den <=? num then nb_digits (num / den)
  else 1 - nb_digits ((den + num - 1) / num - 1).

(** Compares [j * 10^p] with [M * 2^E]. *)
Definition cmp_dec_bin (j p M E : Z) : comparison :=
  (j * 10 ^ Z.max p 0 * 2 ^ Z.max (- E) 0)
    ?= (M * 2 ^ Z.max E 0 * 10 ^ Z.max (- p) 0).

(** Does the decimal [j * 10^p] read back as the float [m * 2^e]?  It does
    when it lies between the midpoints to the two neighbours of the float,
    the midpoints included when [m] is even. *)
Definition reads_back (m : positive) (e : Z) (j p : Z) : bool :=
  let lo := if (Pos.eqb m (Pos.iter xO xH 52) && (- 1074 <? e))%bool
            then 4 * Zpos m - 1 else 4 * Zpos m - 2 in
  let hi := 4 * Zpos m + 2 in
  let incl := Z.even (Zpos m) in
  let above_lo := match cmp_dec_bin j p lo (e - 2) with
                  | Gt => true | Eq => incl | Lt => false end in
  let below_hi := match cmp_dec_bin j p hi (e - 2) with
                  | Lt => true | Eq => incl | Gt => false end in
  (above_lo && below_hi)%bool.

(** The [k]-digit decimal nearest to [m * 2^e] among those that read back. *)
Definition digits_at (m : positive) (e : Z) (k : Z) : option (Z * Z) :=
  let p := decpt_of m e - k in
  let num := Zpos m * 2 ^ Z.max e 0 * 10 ^ Z.max (- p) 0 in
  let den := 2 ^ Z.max (- e) 0 * 10 ^ Z.max p 0 in
  let j := num / den in
  let r := num mod den in
  let lo_ok := reads_back m e j p in
  let hi_ok := reads_back m e (j + 1) p in
  let nearest := match 2 * r ?= den with
                 | Lt => j | Gt => j + 1
                 | Eq => if Z.even j then j else j + 1 end in
  if (lo_ok && hi_ok)%bool then Some (nearest, p)
  else if lo_ok then Some (j, p)
  else if hi_ok then Some (j + 1, p)
  else None.

(** Tries 1, 2, ... digits; seventeen digits always read back. *)
Fixpoint shortest_from (fuel : nat) (m : positive) (e : Z) (k : Z) : Z * Z :=
  match fuel with
  | O => let p := decpt_of m e - k in
         (div_half_even (Zpos m * 2 ^ Z.max e 0 * 10 ^ Z.max (- p) 0)
                        (2 ^ Z.max (- e) 0 * 10 ^ Z.max p 0), p)
  | S fuel' =>
      match digits_at m e k with
      | Some jp => jp
      | None => shortest_from fuel' m e (k + 1)
      end
  end.

Fixpoint strip_zeros (fuel : nat) (j p : Z) : Z * Z :=
  match fuel with
  | O => (j, p)
  | S fuel' =>
      if ((0 <? j) && (j mod 10 =? 0))%bool
      then strip_zeros fuel' (j / 10) (p + 1)
      else (j, p)
  end.

(** The digits [j] and the exponent [p] of [repr(x)] for [x = m * 2^e]: the
    shortest decimal [j * 10^p] that reads back as [x]. *)
Definition shortest_digits (m : positive) (e : Z) : Z * Z :=
  let '(j, p) := shortest_from 16 m e 1 in strip_zeros 20 j p.

(** ** [decimal.Decimal] in the default context *)

Inductive Decimal :=
| DFinite (sign : bool) (coef : Z) (exp : Z)
| DInfinity (sign : bool)
| DNaN.

(** [Decimal(str(x))].  [str] writes the shortest digits, in positional
    notation (with [.0] after an integer) when [-4 < decpt <= 16] and in
    exponent notation otherwise. *)
Definition Decimal_of_str_float (x : float) : Decimal :=
  match x with
  | S754_zero s => DFinite s 0 (-1)
  | S754_infinity s => DInfinity s
  | S754_nan => DNaN
  | S754_finite s m e =>
      let '(j, p) := shortest_digits m e in
      let decpt := p + nb_digits j in
      if ((-4 <? decpt) && (decpt <=? 16) && (0 <=? p))%bool
      then DFinite s (j * 10 ^ (p + 1)) (-1)
      else DFinite s j p
  end.

Definition Decimal_prec : Z := 28.

(** [Decimal._fix]: a coefficient of more than 28 digits is rounded half
    even to 28 digits. *)
Definition Decimal_fix (s : bool) (c e : Z) : Decimal :=
  if c <? 10 ^ Decimal_prec then DFinite s c e
  else
    let d := nb_digits c - Decimal_prec in
    let c' := div_half_even c (10 ^ d) in
    if c' <? 10 ^ Decimal_prec then DFinite s c' (e + d)
    else DFinite s (c' / 10) (e + d + 1).

Definition signed (s : bool) (c : Z) : Z := if s then - c else c.

(** [a + b]; [None] is the exception [decimal.InvalidOperation], raised for
    the sum of two infinities of opposite signs. *)
Definition Decimal_add (a b : Decimal) : option Decimal :=
  match a, b with
  | DNaN, _ | _, DNaN => Some DNaN
  | DInfinity sa, DInfinity sb => if Bool.eqb sa sb then Some a else None
  | DInfinity _, _ => Some a
  | _, DInfinity _ => Some b
  | DFinite sa ca ea, DFinite sb cb eb =>
      let e := Z.min ea eb in
      let v := signed sa (ca * 10 ^ (ea - e)) + signed sb (cb * 10 ^ (eb - e)) in
      let s := if v =? 0
               then (if ((ca =? 0) && (cb =? 0))%bool then (sa && sb)%bool else false)
               else v <? 0 in
      Some (Decimal_fix s (Z.abs v) e)
  end.

(** [float(d)]: the float nearest to the decimal. *)
Definition float_of_Decimal (d : Decimal) : float :=
  match d with
  | DNaN => S754_nan
  | DInfinity s => S754_infinity s
  | DFinite s c e =>
      match c with
      | Zpos p =>
          if 0 <=? e then float_of_ratio s (p * Z.to_pos (10 ^ e)) 1
          else float_of_ratio s p (Z.to_pos (10 ^ (- e)))
      | _ => S754_zero s
      end
  end.

(** ** Strings and dates *)

(** [str(n)] for an [int]. *)
Definition str_int (n : Z) : string := NilZero.string_of_int (Z.to_int n).

Fixpoint zfill (width : nat) (s : string) : string :=
  match width with
  | O => s
  | S w => if Nat.ltb (String.length s) width then zfill w (String "0"%char s) else s
  end.

Record date := { year : Z; month : Z; day : Z }.

(** [d.isoformat()], the text [YYYY-MM-DD]. *)
Definition isoformat (d : date) : string :=
  (zfill 4 (str_int (year d)) ++ "-" ++ zfill 2 (str_int (month d))
     ++ "-" ++ zfill 2 (str_int (day d)))%string.

(** ** The tables of the schema *)

Module ClientRow.
Record t := mk
  { id : Z; name : string; address : string; company_registration_no : string }.
End ClientRow.

Module ProductRow.
Record t := mk { id : Z; name : string; price : float }.
End ProductRow.

Module InvoiceRow.
Record t := mk
  { id : Z; invoice_no : string; issue_date : string; due_date : string;
    client_id : Z; address : string; tax : float; total : float }.
End InvoiceRow.

Module InvoiceItemRow.
Record t := mk
  { id : Z; invoice_id : Z; product_id : Z;
    quantity : float; unit_price : float; line_total : float }.
End InvoiceItemRow.

(** The store: the four tables, and the AUTOINCREMENT counters that the
    store keeps for the two tables the API inserts into. *)
Record Store := mkStore
  { clients : list ClientRow.t;
    products : list ProductRow.t;
    invoices : list InvoiceRow.t;
    invoice_items : list InvoiceItemRow.t;
    seq_invoices : Z;
    seq_invoice_items : Z }.

(** ** Exceptions and the handler monad *)

Inductive exn :=
| HTTPException (status_code : Z) (detail : string)
| RequestValidationError (loc : string)
| IntegrityError (msg : string)
| InvalidOperation.

(** [str(e)] for the exceptions the handlers turn into a 500 response. *)
Definition str_exn (e : exn) : string :=
  match e with
  | HTTPException _ d => d
  | RequestValidationError l => l
  | IntegrityError m => m
  | InvalidOperation => "[<class 'decimal.InvalidOperation'>]"
  end.

(** A computation on the open connection: it reads and writes the store and
    returns a value or raises. *)
Definition DB (A : Type) : Type := Store -> (exn + A) * Store.

Definition ret {A} (a : A) : DB A := fun s => (inr a, s).
Definition raise {A} (e : exn) : DB A := fun s => (inl e, s).
Definition bind {A B} (c : DB A) (k : A -> DB B) : DB B :=
  fun s => match c s with
           | (inr a, s') => k a s'
           | (inl e, s') => (inl e, s')
           end.

Declare Scope db_scope.
Delimit Scope db_scope with db.
Notation "x <- c ;; k" := (bind c (fun x => k))
  (at level 100, c at next level, right associativity) : db_scope.
Notation "' p <- c ;; k" := (bind c (fun x => let p := x in k))
  (at level 100, p pattern, c at next level, right associativity) : db_scope.
Notation "c ;;; k" := (bind c (fun _ => k))
  (at level 100, right associativity) : db_scope.
Open Scope db_scope.

(** Modelled from the spec: [app/database.py] ([get_db]) is not among the
    sources.  The spec makes each call one transaction on its own connection,
    all-or-nothing: the writes of the block are committed when it ends
    normally and rolled back when it raises, and the exception goes on. *)
Definition get_db {A} (block : DB A) : DB A :=
  fun s => match block s with
           | (inr a, s') => (inr a, s')
           | (inl e, _) => (inl e, s)
           end.

(** [try: ... except HTTPException: raise
    except Exception as e: raise HTTPException(status_code=500, detail=str(e))] *)
Definition except_reraise_500 {A} (c : DB A) : DB A :=
  fun s => match c s with
           | (inl (HTTPException sc d), s') => (inl (HTTPException sc d), s')
           | (inl e, s') => (inl (HTTPException 500 (str_exn e)), s')
           | (inr a, s') => (inr a, s')
           end.

(** [try: ... except Exception as e: raise HTTPException(500, str(e))];
    [HTTPException] is itself an [Exception]. *)
Definition except_500 {A} (c : DB A) : DB A :=
  fun s => match c s with
           | (inl e, s') => (inl (HTTPException 500 (str_exn e)), s')
           | (inr a, s') => (inr a, s')
           end.

(** ** The SQL statements of the handlers *)

(** A REAL parameter as the store keeps it: [nan] is bound as NULL, and a
    negative zero is kept as zero. *)
Definition sqlite_real (x : float) : option float :=
  match x with
  | S754_nan => None
  | S754_zero _ => Some (S754_zero false)
  | _ => Some x
  end.

(** The rowid of a new row of an AUTOINCREMENT table: one more than the
    largest rowid the table has ever held. *)
Definition next_rowid (seq : Z) (ids : list Z) : Z :=
  fold_right Z.max seq ids + 1.

(** [SELECT id, name, address, company_registration_no FROM clients
     WHERE id = ?], [fetchone()] *)
Definition select_client (client_id : Z) : DB (option ClientRow.t) :=
  fun s => (inr (find (fun c => ClientRow.id c =? client_id) (clients s)), s).

(** [SELECT id, name, price FROM products WHERE id = ?], [fetchone()] *)
Definition select_product (product_id : Z) : DB (option ProductRow.t) :=
  fun s => (inr (find (fun p => ProductRow.id p =? product_id) (products s)), s).

Definition not_null (column : string) (x : float) : exn + float :=
  match sqlite_real x with
  | Some y => inr y
  | None => inl (IntegrityError ("NOT NULL constraint failed: " ++ column))
  end.

(** [INSERT INTO invoices (invoice_no, issue_date, due_date, client_id,
     address, tax, total) VALUES (?, ?, ?, ?, ?, ?, ?)], then
    [cursor.lastrowid].  The NOT NULL columns are checked before the UNIQUE
    column [invoice_no]; a statement that fails writes nothing. *)
Definition insert_invoice (invoice_no issue_date due_date : string)
    (client_id : Z) (address : string) (tax total : float) : DB Z :=
  fun s =>
    match not_null "invoices.tax" tax with
    | inl e => (inl e, s)
    | inr tax' =>
    match not_null "invoices.total" total with
    | inl e => (inl e, s)
    | inr total' =>
      if existsb (fun i => String.eqb (InvoiceRow.invoice_no i) invoice_no) (invoices s)
      then (inl (IntegrityError "UNIQUE constraint failed: invoices.invoice_no"), s)
      else
        let rowid := next_rowid (seq_invoices s) (map InvoiceRow.id (invoices s)) in
        (inr rowid,
         {| clients := clients s; products := products s;
            invoices := invoices s ++
              [InvoiceRow.mk rowid invoice_no issue_date due_date client_id
                 address tax' total'];
            invoice_items := invoice_items s;
            seq_invoices := rowid;
            seq_invoice_items := seq_invoice_items s |})
    end end.

(** [INSERT INTO invoice_items (invoice_id, product_id, quantity, unit_price,
     line_total) VALUES (?, ?, ?, ?, ?)] *)
Definition insert_invoice_item (invoice_id product_id : Z)
    (quantity unit_price line_total : float) : DB unit :=
  fun s =>
    match not_null "invoice_items.quantity" quantity with
    | inl e => (inl e, s)
    | inr quantity' =>
    match not_null "invoice_items.unit_price" unit_price with
    | inl e => (inl e, s)
    | inr unit_price' =>
    match not_null "invoice_items.line_total" line_total with
    | inl e => (inl e, s)
    | inr line_total' =>
        let rowid := next_rowid (seq_invoice_items s)
                       (map InvoiceItemRow.id (invoice_items s)) in
        (inr tt,
         {| clients := clients s; products := products s;
            invoices := invoices s;
            invoice_items := invoice_items s ++
              [InvoiceItemRow.mk rowid invoice_id product_id
                 quantity' unit_price' line_total'];
            seq_invoices := seq_invoices s;
            seq_invoice_items := rowid |})
    end end end.

(** [SELECT ... FROM invoices i JOIN clients c ON c.id = i.client_id
     WHERE i.id = ?], [fetchone()] *)
Definition select_invoice_with_client (invoice_id : Z)
  : DB (option (InvoiceRow.t * ClientRow.t)) :=
  fun s =>
    (inr (hd_error
       (flat_map
          (fun i => map (fun c => (i, c))
             (filter (fun c => ClientRow.id c =? InvoiceRow.client_id i) (clients s)))
          (filter (fun i => InvoiceRow.id i =? invoice_id) (invoices s)))), s).

(** [SELECT ii.product_id, p.name AS product_name, ii.quantity, ii.unit_price,
     ii.line_total FROM invoice_items ii JOIN products p
     ON p.id = ii.product_id WHERE ii.invoice_id = ?], [fetchall()].
    The statement has no ORDER BY; the rows come in the rowid order of
    [invoice_items]. *)
Definition select_items_with_product (invoice_id : Z)
  : DB (list (InvoiceItemRow.t * ProductRow.t)) :=
  fun s =>
    (inr (flat_map
       (fun ii => map (fun p => (ii, p))
          (filter (fun p => ProductRow.id p =? InvoiceItemRow.product_id ii) (products s)))
       (filter (fun ii => InvoiceItemRow.invoice_id ii =? invoice_id) (invoice_items s))), s).

(** [SELECT id FROM invoices WHERE id = ?], [fetchone()] *)
Definition select_invoice_id (invoice_id : Z) : DB (option Z) :=
  fun s => (inr (option_map InvoiceRow.id
                   (find (fun i => InvoiceRow.id i =? invoice_id) (invoices s))), s).

(** [DELETE FROM invoice_items WHERE invoice_id = ?] *)
Definition delete_invoice_items (invoice_id : Z) : DB unit :=
  fun s =>
    (inr tt,
     {| clients := clients s; products := products s; invoices := invoices s;
        invoice_items :=
          filter (fun ii => negb (InvoiceItemRow.invoice_id ii =? invoice_id))
                 (invoice_items s);
        seq_invoices := seq_invoices s;
        seq_invoice_items := seq_invoice_items s |}).

(** [DELETE FROM invoices WHERE id = ?]; the items that reference the
    invoice go with it (ON DELETE CASCADE). *)
Definition delete_invoice_row (invoice_id : Z) : DB unit :=
  fun s =>
    (inr tt,
     {| clients := clients s; products := products s;
        invoices := filter (fun i => negb (InvoiceRow.id i =? invoice_id)) (invoices s);
        invoice_items :=
          filter (fun ii => negb (InvoiceItemRow.invoice_id ii =? invoice_id))
                 (invoice_items s);
        seq_invoices := seq_invoices s;
        seq_invoice_items := seq_invoice_items s |}).

(** [ORDER BY id]: a stable insertion sort on the key. *)
Section OrderBy.
Context {A : Type} (key : A -> Z).

Fixpoint insert_by (a : A) (l : list A) : list A :=
  match l with
  | [] => [a]
  | b :: l' => if key a <? key b then a :: b :: l' else b :: insert_by a l'
  end.

Definition order_by (l : list A) : list A := fold_right insert_by [] l.
End OrderBy.

(** [LIMIT ? OFFSET ?]: a negative limit is no limit, a negative offset is
    no offset. *)
Definition limit_offset {A} (limit offset : Z) (l : list A) : list A :=
  let l' := skipn (Z.to_nat offset) l in
  if limit <? 0 then l' else firstn (Z.to_nat limit) l'.

(** [SELECT COUNT( * ) FROM t], [fetchone()[0]] *)
Definition count {A} (table : Store -> list A) : DB Z :=
  fun s => (inr (Z.of_nat (List.length (table s))), s).

(** [SELECT ... FROM t ORDER BY id LIMIT ? OFFSET ?], [fetchall()] *)
Definition select_page {A} (table : Store -> list A) (key : A -> Z)
    (limit offset : Z) : DB (list A) :=
  fun s => (inr (limit_offset limit offset (order_by key (table s))), s).

(** ** The request and response models of [invoices.py] *)

Module InvoiceItemCreate.
Record t := mk { product_id : Z; quantity : float }.
End InvoiceItemCreate.

Module InvoiceCreate.
Record t := mk
  { invoice_no : string; issue_date : date; due_date : date;
    client_id : Z; address : string;
    items : list InvoiceItemCreate.t; tax : float }.
End InvoiceCreate.

Module InvoiceItemResponse.
Record t := mk
  { product_id : Z; product_name : string;
    quantity : float; unit_price : float; line_total : float }.
End InvoiceItemResponse.

Module ClientRef.
Record t := mk
  { id : Z; name : string; address : string; company_registration_no : string }.
End ClientRef.

Module InvoiceResponse.
Record t := mk
  { id : Z; invoice_no : string; issue_date : string; due_date : string;
    client : ClientRef.t; address : string;
    items : list InvoiceItemResponse.t; tax : float; total : float }.
End InvoiceResponse.

Definition _row_to_client_ref (row : ClientRow.t) : ClientRef.t :=
  ClientRef.mk (ClientRow.id row) (ClientRow.name row) (ClientRow.address row)
    (ClientRow.company_registration_no row).

Definition _row_to_invoice_item_response (row : InvoiceItemRow.t * ProductRow.t)
  : InvoiceItemResponse.t :=
  InvoiceItemResponse.mk (InvoiceItemRow.product_id (fst row))
    (ProductRow.name (snd row)) (InvoiceItemRow.quantity (fst row))
    (InvoiceItemRow.unit_price (fst row)) (InvoiceItemRow.line_total (fst row)).

(** ** [create_invoice] *)

(** One element of [line_rows]:
    [(product_id, prod["name"], qty, unit_price, line_total)]. *)
Definition line_row : Type := Z * string * float * float * float.

(** [subtotal += d] *)
Definition Decimal_iadd (subtotal d : Decimal) : DB Decimal :=
  match Decimal_add subtotal d with
  | Some r => ret r
  | None => raise InvalidOperation
  end.

(** The loop [for line in body.items], with its two accumulators. *)
Fixpoint price_lines (lines : list InvoiceItemCreate.t) (subtotal : Decimal)
    (line_rows : list line_row) : DB (Decimal * list line_row) :=
  match lines with
  | [] => ret (subtotal, line_rows)
  | line :: rest =>
      prod <- select_product (InvoiceItemCreate.product_id line) ;;
      match prod with
      | None =>
          raise (HTTPException 400
                   ("Invalid product_id: " ++ str_int (InvoiceItemCreate.product_id line)))
      | Some prod =>
          let unit_price := ProductRow.price prod in
          let qty := InvoiceItemCreate.quantity line in
          let line_total := round (float_mul unit_price qty) 2 in
          subtotal' <- Decimal_iadd subtotal (Decimal_of_str_float line_total) ;;
          price_lines rest subtotal'
            (line_rows ++ [(InvoiceItemCreate.product_id line, ProductRow.name prod,
                            qty, unit_price, line_total)])
      end
  end.

(** The loop [for product_id, _pn, qty, unit_price, line_total in line_rows]. *)
Fixpoint insert_line_rows (invoice_id : Z) (line_rows : list line_row) : DB unit :=
  match line_rows with
  | [] => ret tt
  | (product_id, _pn, qty, unit_price, line_total) :: rest =>
      insert_invoice_item invoice_id product_id qty unit_price line_total ;;;
      insert_line_rows invoice_id rest
  end.

Definition item_response_of_line_row (r : line_row) : InvoiceItemResponse.t :=
  let '(pid, pn, q, up, lt) := r in InvoiceItemResponse.mk pid pn q up lt.

(** The block under [with get_db() as conn]. *)
Definition create_invoice_block (body : InvoiceCreate.t) : DB InvoiceResponse.t :=
  client_row <- select_client (InvoiceCreate.client_id body) ;;
  match client_row with
  | None => raise (HTTPException 400 "Invalid client_id")
  | Some client_row =>
      r <- price_lines (InvoiceCreate.items body) (DFinite false 0 0) [] ;;
      let subtotal := fst r in
      let line_rows := snd r in
      let total := float_add (float_of_Decimal subtotal) (InvoiceCreate.tax body) in
      let total := round total 2 in
      invoice_id <- insert_invoice (InvoiceCreate.invoice_no body)
                      (isoformat (InvoiceCreate.issue_date body))
                      (isoformat (InvoiceCreate.due_date body))
                      (InvoiceCreate.client_id body) (InvoiceCreate.address body)
                      (InvoiceCreate.tax body) total ;;
      insert_line_rows invoice_id line_rows ;;;
      let client := _row_to_client_ref client_row in
      let items_resp := map item_response_of_line_row line_rows in
      ret (InvoiceResponse.mk invoice_id (InvoiceCreate.invoice_no body)
             (isoformat (InvoiceCreate.issue_date body))
             (isoformat (InvoiceCreate.due_date body))
             client (InvoiceCreate.address body) items_resp
             (InvoiceCreate.tax body) total)
  end.

Definition create_invoice (body : InvoiceCreate.t) : DB InvoiceResponse.t :=
  except_reraise_500 (get_db (create_invoice_block body)).

(** ** [get_invoice] and [delete_invoice] *)

Definition get_invoice_block (invoice_id : Z) : DB InvoiceResponse.t :=
  row <- select_invoice_with_client invoice_id ;;
  match row with
  | None => raise (HTTPException 404 "Invoice not found")
  | Some (i, c) =>
      let client := ClientRef.mk (ClientRow.id c) (ClientRow.name c)
                      (ClientRow.address c) (ClientRow.company_registration_no c) in
      item_rows <- select_items_with_product invoice_id ;;
      let items := map _row_to_invoice_item_response item_rows in
      ret (InvoiceResponse.mk (InvoiceRow.id i) (InvoiceRow.invoice_no i)
             (InvoiceRow.issue_date i) (InvoiceRow.due_date i) client
             (InvoiceRow.address i) items (InvoiceRow.tax i) (InvoiceRow.total i))
  end.

Definition get_invoice (invoice_id : Z) : DB InvoiceResponse.t :=
  except_reraise_500 (get_db (get_invoice_block invoice_id)).

Definition delete_invoice_block (invoice_id : Z) : DB unit :=
  found <- select_invoice_id invoice_id ;;
  match found with
  | None => raise (HTTPException 404 "Invoice not found")
  | Some _ =>
      delete_invoice_items invoice_id ;;;
      delete_invoice_row invoice_id ;;;
      ret tt
  end.

Definition delete_invoice (invoice_id : Z) : DB unit :=
  except_reraise_500 (get_db (delete_invoice_block invoice_id)).

(** ** The list handlers *)

Definition DEFAULT_PAGE_SIZE : Z := 20.
Definition MAX_PAGE_SIZE : Z := 100.

Module Pagination.
Record t := mk { total : Z; page : Z; page_size : Z; total_pages : Z }.
End Pagination.

(** The summary of an invoice in the list:
    [id], [invoice_no], [issue_date], [due_date], [total]. *)
Module InvoiceSummary.
Record t := mk
  { id : Z; invoice_no : string; issue_date : string; due_date : string;
    total : float }.
End InvoiceSummary.

Definition invoice_summary (r : InvoiceRow.t) : InvoiceSummary.t :=
  InvoiceSummary.mk (InvoiceRow.id r) (InvoiceRow.invoice_no r)
    (InvoiceRow.issue_date r) (InvoiceRow.due_date r) (InvoiceRow.total r).

(** [(total + page_size - 1) // page_size if page_size else 0] *)
Definition total_pages_of (total page_size : Z) : Z :=
  if page_size =? 0 then 0 else (total + page_size - 1) / page_size.

(** The body the three list handlers share: the count, the page of rows
    taken with LIMIT and OFFSET, and the pagination record. *)
Definition list_rows {A B} (table : Store -> list A) (key : A -> Z)
    (to_dict : A -> B) (page page_size : Z) : DB (list B * Pagination.t) :=
  except_500 (get_db (
    total <- count table ;;
    let offset := (page - 1) * page_size in
    rows <- select_page table key page_size offset ;;
    let total_pages := total_pages_of total page_size in
    ret (map to_dict rows, Pagination.mk total page page_size total_pages))).

Definition list_clients (page page_size : Z) : DB (list ClientRow.t * Pagination.t) :=
  list_rows clients ClientRow.id (fun r => r) page page_size.

Definition list_products (page page_size : Z) : DB (list ProductRow.t * Pagination.t) :=
  list_rows products ProductRow.id (fun r => r) page page_size.

Definition list_invoices (page page_size : Z)
  : DB (list InvoiceSummary.t * Pagination.t) :=
  list_rows invoices InvoiceRow.id invoice_summary page page_size.

(** ** The request-schema boundary

    The framework checks the declared constraints before it calls a
    handler: [Query(1, ge=1)], [Query(DEFAULT_PAGE_SIZE, ge=1,
    le=MAX_PAGE_SIZE)], [Field(gt=0)], [Field(min_length=1)] and
    [Field(ge=0, default=0.0)].  A request that fails one of them is
    answered 422 and the handler does not run. *)

(** An integer query parameter: the default when it is absent, a
    validation error when it is out of range. *)
Definition Query (default ge : Z) (le : option Z) (loc : string) (v : option Z)
  : exn + Z :=
  match v with
  | None => inr default
  | Some x =>
      if ((ge <=? x) && match le with Some m => x <=? m | None => true end)%bool
      then inr x
      else inl (RequestValidationError loc)
  end.

Definition with_page {A} (handler : Z -> Z -> DB A) (page page_size : option Z) : DB A :=
  match Query 1 1 None "query.page" page with
  | inl e => raise e
  | inr page =>
      match Query DEFAULT_PAGE_SIZE 1 (Some MAX_PAGE_SIZE) "query.page_size" page_size with
      | inl e => raise e
      | inr page_size => handler page page_size
      end
  end.

Definition GET_clients := with_page list_clients.
Definition GET_products := with_page list_products.
Definition GET_invoices := with_page list_invoices.

(** The JSON body of POST /invoices once its fields have their types; [tax]
    may be absent. *)
Module InvoiceCreateJSON.
Record t := mk
  { invoice_no : string; issue_date : date; due_date : date;
    client_id : Z; address : string;
    items : list InvoiceItemCreate.t; tax : option float }.
End InvoiceCreateJSON.

Definition zero : float := S754_zero false.

(** [quantity: float = Field(gt=0)] *)
Definition InvoiceItemCreate_validate (i : InvoiceItemCreate.t) : bool :=
  float_lt zero (InvoiceItemCreate.quantity i).

(** The model [InvoiceCreate]: [invoice_no: str] carries no constraint,
    [items] has [min_length=1], [tax] has [ge=0] and the default [0.0]. *)
Definition InvoiceCreate_validate (j : InvoiceCreateJSON.t) : exn + InvoiceCreate.t :=
  if (List.length (InvoiceCreateJSON.items j) <? 1)%nat
  then inl (RequestValidationError "body.items")
  else if negb (forallb InvoiceItemCreate_validate (InvoiceCreateJSON.items j))
  then inl (RequestValidationError "body.items.quantity")
  else
    let tax := match InvoiceCreateJSON.tax j with Some t => t | None => zero end in
    if negb (float_le zero tax)
    then inl (RequestValidationError "body.tax")
    else inr (InvoiceCreate.mk (InvoiceCreateJSON.invoice_no j)
                (InvoiceCreateJSON.issue_date j) (InvoiceCreateJSON.due_date j)
                (InvoiceCreateJSON.client_id j) (InvoiceCreateJSON.address j)
                (InvoiceCreateJSON.items j) tax).

Definition POST_invoices (j : InvoiceCreateJSON.t) : DB InvoiceResponse.t :=
  match InvoiceCreate_validate j with
  | inl e => raise e
  | inr body => create_invoice body
  end.

(** ** The seed data of the migration *)

Definition seed : Store :=
  {| clients :=
       [ ClientRow.mk 1 "Acme Corp" "123 Main St, City A" "REG-001";
         ClientRow.mk 2 "Beta Ltd" "456 Oak Ave, City B" "REG-002";
         ClientRow.mk 3 "Gamma Inc" "789 Pine Rd, City C" "REG-003" ];
     products :=
       [ ProductRow.mk 1 "Widget A" (float_of_ratio false 1000 100);
         ProductRow.mk 2 "Widget B" (float_of_ratio false 2550 100);
         ProductRow.mk 3 "Service Hour" (float_of_ratio false 7500 100);
         ProductRow.mk 4 "License Fee" (float_of_ratio false 19900 100) ];
     invoices := [];
     invoice_items := [];
     seq_invoices := 0;
     seq_invoice_items := 0 |}.

(** ** Sums of line totals *)

(** The decimal accumulation [acc + d1 + d2 + ...] from left to right;
    [None] when an addition raises. *)
Fixpoint Decimal_sum (acc : Decimal) (ds : list Decimal) : option Decimal :=
  match ds with
  | [] => Some acc
  | d :: ds' =>
      match Decimal_add acc d with
      | Some acc' => Decimal_sum acc' ds'
      | None => None
      end
  end.

(** Python's [sum] over floats: binary additions from left to right, from 0. *)
Definition float_sum (xs : list float) : float := fold_left float_add xs zero.

(** ** The error taxonomy of the specification *)

Inductive ErrorKind :=
| ValidationError | InvalidReference | NotFound | IntegrityConflict | Internal.

(** The kind of error a response shows its caller: 422 for a request the
    schema refuses, 400 for a reference that does not resolve, 404 for an
    absent id, 409 for a conflict, and a server error otherwise. *)
Definition error_kind (e : exn) : ErrorKind :=
  match e with
  | RequestValidationError _ => ValidationError
  | HTTPException 422 _ => ValidationError
  | HTTPException 400 _ => InvalidReference
  | HTTPException 404 _ => NotFound
  | HTTPException 409 _ => IntegrityConflict
  | _ => Internal
  end.

(** ** The predicates of the statements *)

(** A line of the request priced against the store: the row the loop
    appends to [line_rows]. *)
Definition priced (s : Store) (line : InvoiceItemCreate.t) (r : line_row) : Prop :=
  exists prod,
    find (fun p => ProductRow.id p =? InvoiceItemCreate.product_id line) (products s)
      = Some prod /\
    r = (InvoiceItemCreate.product_id line, ProductRow.name prod,
         InvoiceItemCreate.quantity line, ProductRow.price prod,
         round (float_mul (ProductRow.price prod) (InvoiceItemCreate.quantity line)) 2).

Definition line_total_of (r : line_row) : float := snd r.

(** A row of [line_rows] as [invoice_items] keeps it. *)
Definition stored_as (invoice_id : Z) (r : line_row) (it : InvoiceItemRow.t) : Prop :=
  let '(pid, _, q, up, lt) := r in
  InvoiceItemRow.invoice_id it = invoice_id /\
  InvoiceItemRow.product_id it = pid /\
  sqlite_real q = Some (InvoiceItemRow.quantity it) /\
  sqlite_real up = Some (InvoiceItemRow.unit_price it) /\
  sqlite_real lt = Some (InvoiceItemRow.line_total it).

(** A line of the request and the priced item returned for it. *)
Definition priced_item (s : Store) (line : InvoiceItemCreate.t)
    (item : InvoiceItemResponse.t) : Prop :=
  exists prod,
    find (fun p => ProductRow.id p =? InvoiceItemCreate.product_id line) (products s)
      = Some prod /\
    InvoiceItemResponse.product_id item = InvoiceItemCreate.product_id line /\
    InvoiceItemResponse.product_name item = ProductRow.name prod /\
    InvoiceItemResponse.quantity item = InvoiceItemCreate.quantity line /\
    InvoiceItemResponse.unit_price item = ProductRow.price prod /\
    InvoiceItemResponse.line_total item
    = round (float_mul (ProductRow.price prod) (InvoiceItemCreate.quantity line)) 2.

Definition has_product (products : list ProductRow.t) (r : line_row) : Prop :=
  let '(pid, pn, _, _, _) := r in
  exists prod, find (fun p => ProductRow.id p =? pid) products = Some prod /\
               ProductRow.name prod = pn.

(** Two priced items that Python's [==] cannot tell apart. *)
Definition same_item (a b : InvoiceItemResponse.t) : Prop :=
  InvoiceItemResponse.product_id a = InvoiceItemResponse.product_id b /\
  InvoiceItemResponse.product_name a = InvoiceItemResponse.product_name b /\
  float_eq (InvoiceItemResponse.quantity a) (InvoiceItemResponse.quantity b) = true /\
  float_eq (InvoiceItemResponse.unit_price a) (InvoiceItemResponse.unit_price b) = true /\
  float_eq (InvoiceItemResponse.line_total a) (InvoiceItemResponse.line_total b) = true.

Definition resolves (s : Store) (line : InvoiceItemCreate.t) : bool :=
  existsb (fun p => ProductRow.id p =? InvoiceItemCreate.product_id line) (products s).

(** Neither minus infinity nor a negative number. *)
Definition not_negative (x : float) : Prop :=
  match x with
  | S754_infinity s | S754_finite s _ _ => s = false
  | _ => True
  end.

Definition not_minus_infinity (d : Decimal) : Prop := d <> DInfinity true.

(** ** The constraints of the schema the round trip relies on *)

(** [products.id] is a primary key, and [invoice_items.invoice_id]
    references [invoices.id]. *)
Record Store_wf (s : Store) : Prop := mkStore_wf
  { wf_products_pk : NoDup (map ProductRow.id (products s));
    wf_items_fk : forall it, In it (invoice_items s) ->
                  In (InvoiceItemRow.invoice_id it) (map InvoiceRow.id (invoices s)) }.

(** ** Pages and sums in the statements *)

(** The order of [ORDER BY id]. *)
Definition key_le {A : Type} (key : A -> Z) (a b : A) : Prop := key a <= key b.


(** [n] is the ceiling of [total / page_size]. *)
Definition is_ceil_div (total page_size n : Z) : Prop :=
  (n - 1) * page_size < total <= n * page_size.

(** The value of a decimal in hundredths, when it is a whole number of
    hundredths written with at most two decimals. *)
Definition Decimal_cents (d : Decimal) : option Z :=
  match d with
  | DFinite s c e => if -2 <=? e then Some (signed s c * 10 ^ (e + 2)) else None
  | _ => None
  end.

Definition Zsum (cs : list Z) : Z := fold_right Z.add 0 cs.
Definition Zsum_abs (cs : list Z) : Z := fold_right (fun c t => Z.abs c + t) 0 cs.

(** ** Decimal-safe rounding, in the words of the specification *)

(** The exact product of two finite decimals. *)
Definition Decimal_mul_exact (a b : Decimal) : option Decimal :=
  match a, b with
  | DFinite sa ca ea, DFinite sb cb eb => Some (DFinite (xorb sa sb) (ca * cb) (ea + eb))
  | _, _ => None
  end.

(** A finite decimal rounded to two decimals, half up or half even. *)
Definition quantize2 (half_up : bool) (d : Decimal) : option Decimal :=
  match d with
  | DFinite s c e =>
      if -2 <=? e then Some (DFinite s (c * 10 ^ (e + 2)) (-2))
      else
        let den := 10 ^ (- 2 - e) in
        Some (DFinite s (if half_up then (2 * c + den) / (2 * den)
                         else div_half_even c den) (-2))
  | _ => None
  end.

(** Following the spec's words, [line_total = round(unit_price * quantity, 2)]
    with decimal-safe rounding: the decimals that [unit_price] and
    [quantity] stand for are multiplied exactly and the product is rounded to
    two decimals. *)
Definition line_total_decimal_safe (half_up : bool) (unit_price quantity : float)
  : option Decimal :=
  match Decimal_mul_exact (Decimal_of_str_float unit_price)
                          (Decimal_of_str_float quantity) with
  | Some p => quantize2 half_up p
  | None => None
  end.

(** ** Concrete requests on the seed data *)

Definition feb_1 : date := {| year := 2025; month := 2; day := 1 |}.
Definition feb_28 : date := {| year := 2025; month := 2; day := 28 |}.

(** The request of the test [test_invoices_crud]: two Widget A, one
    Widget B, tax 5.0. *)
Definition payload : InvoiceCreate.t :=
  InvoiceCreate.mk "INV-001" feb_1 feb_28 1 "123 Main St"
    [ InvoiceItemCreate.mk 1 (float_of_Z 2); InvoiceItemCreate.mk 2 (float_of_Z 1) ]
    (float_of_Z 5).

Definition payload_json (invoice_no : string) : InvoiceCreateJSON.t :=
  InvoiceCreateJSON.mk invoice_no feb_1 feb_28 1 "123 Main St"
    [ InvoiceItemCreate.mk 1 (float_of_Z 2); InvoiceItemCreate.mk 2 (float_of_Z 1) ]
    (Some (float_of_Z 5)).

Definition no_response : InvoiceResponse.t :=
  InvoiceResponse.mk 0 EmptyString EmptyString EmptyString
    (ClientRef.mk 0 EmptyString EmptyString EmptyString) EmptyString [] zero zero.

Definition response_of (r : (exn + InvoiceResponse.t) * Store) : InvoiceResponse.t :=
  match fst r with inr resp => resp | inl _ => no_response end.

(** The response to [payload] on the seed data, and the store after it. *)
Definition seed_response : InvoiceResponse.t :=
  Eval vm_compute in response_of (create_invoice payload seed).
Definition seed_after : Store :=
  Eval vm_compute in snd (create_invoice payload seed).

(** A thousandth of a Service Hour (75.00). *)
Definition one_line (product_id : Z) (quantity : float) : InvoiceCreate.t :=
  InvoiceCreate.mk "INV-002" feb_1 feb_28 1 "123 Main St"
    [ InvoiceItemCreate.mk product_id quantity ] zero.

(** [10^26] Widget A and a thousandth of a Widget A. *)
Definition huge_and_small : InvoiceCreate.t :=
  InvoiceCreate.mk "INV-003" feb_1 feb_28 1 "123 Main St"
    [ InvoiceItemCreate.mk 1 (float_of_Z (10 ^ 26));
      InvoiceItemCreate.mk 1 (float_of_ratio false 1 1000) ] zero.

(** A hundredth and two hundredths of a Widget A, tax 0.005. *)
Definition dime_and_two : InvoiceCreate.t :=
  InvoiceCreate.mk "INV-004" feb_1 feb_28 1 "123 Main St"
    [ InvoiceItemCreate.mk 1 (float_of_ratio false 1 100);
      InvoiceItemCreate.mk 1 (float_of_ratio false 2 100) ]
    (float_of_ratio false 5 1000).


(** Twelve invoices, inserted in some order. *)
Definition twelve : Store :=
  {| clients := clients seed; products := products seed;
     invoices := map (fun n => InvoiceRow.mk n ("INV-" ++ str_int n) "2025-02-01"
                                 "2025-02-28" 1 EmptyString zero zero)
                     [3; 1; 2; 12; 4; 5; 6; 7; 8; 9; 10; 11];
     invoice_items := []; seq_invoices := 12; seq_invoice_items := 0 |}.



(** ** [get_client] and [get_product]: one row of seed data by id *)

(** The block of [get_client] under [with get_db() as conn]; the dict it
    returns has the four columns of the row. *)
Definition get_client_block (client_id : Z) : DB ClientRow.t :=
  row <- select_client client_id ;;
  match row with
  | None => raise (HTTPException 404 "Client not found")
  | Some row =>
      ret (ClientRow.mk (ClientRow.id row) (ClientRow.name row)
             (ClientRow.address row) (ClientRow.company_registration_no row))
  end.

Definition get_client (client_id : Z) : DB ClientRow.t :=
  except_reraise_500 (get_db (get_client_block client_id)).

Definition get_product_block (product_id : Z) : DB ProductRow.t :=
  row <- select_product product_id ;;
  match row with
  | None => raise (HTTPException 404 "Product not found")
  | Some row =>
      ret (ProductRow.mk (ProductRow.id row) (ProductRow.name row) (ProductRow.price row))
  end.

Definition get_product (product_id : Z) : DB ProductRow.t :=
  except_reraise_500 (get_db (get_product_block product_id)).


(** A decimal that is zero, positive or plus infinity, or not a number. *)
Definition Decimal_not_negative (d : Decimal) : Prop :=
  match d with
  | DFinite s c e => 0 <= c /\ (s = true -> c = 0)
  | DInfinity s => s = false
  | DNaN => True
  end.

(** A row of [line_rows] none of whose numbers is NaN. *)
Definition line_row_not_nan (r : line_row) : Prop :=
  let '(_, _, q, up, lt) := r in
  isnan q = false /\ isnan up = false /\ isnan lt = false.

(** ** The application: the routers that [main.py] registers

    The requests of the clients, products and invoices routers, with their
    path and query parameters read, and what the handlers answer. *)

Inductive Request :=
| Get_clients (page page_size : option Z)
| Get_client (client_id : Z)
| Get_products (page page_size : option Z)
| Get_product (product_id : Z)
| Post_invoices (body : InvoiceCreateJSON.t)
| Get_invoices (page page_size : option Z)
| Get_invoice (invoice_id : Z)
| Delete_invoice (invoice_id : Z).

Inductive Content :=
| Clients (rows : list ClientRow.t) (pagination : Pagination.t)
| Client (row : ClientRow.t)
| Products (rows : list ProductRow.t) (pagination : Pagination.t)
| Product (row : ProductRow.t)
| Invoice (invoice : InvoiceResponse.t)
| Invoices (rows : list InvoiceSummary.t) (pagination : Pagination.t)
| NoContent.

Definition answer {A} (content : A -> Content) (handler : DB A) : DB Content :=
  a <- handler ;; ret (content a).

Module main.
Definition app (r : Request) : DB Content :=
  match r with
  | Get_clients page page_size =>
      answer (fun r => Clients (fst r) (snd r)) (GET_clients page page_size)
  | Get_client client_id => answer Client (get_client client_id)
  | Get_products page page_size =>
      answer (fun r => Products (fst r) (snd r)) (GET_products page page_size)
  | Get_product product_id => answer Product (get_product product_id)
  | Post_invoices body => answer Invoice (POST_invoices body)
  | Get_invoices page page_size =>
      answer (fun r => Invoices (fst r) (snd r)) (GET_invoices page page_size)
  | Get_invoice invoice_id => answer Invoice (get_invoice invoice_id)
  | Delete_invoice invoice_id => answer (fun _ => NoContent) (delete_invoice invoice_id)
  end.
End main.

(** The store after a sequence of requests, each served on its own
    connection. *)
Definition run (requests : list Request) (s : Store) : Store :=
  fold_left (fun s r => snd (main.app r s)) requests s.

(** The constraints that the schema of the migration declares: the primary
    keys, the UNIQUE and NOT NULL columns and the three REFERENCES clauses;
    and the AUTOINCREMENT counters, which are never below an id in use. *)
Record Store_inv (s : Store) : Prop := mkStore_inv
  { inv_clients_pk : NoDup (map ClientRow.id (clients s));
    inv_products_pk : NoDup (map ProductRow.id (products s));
    inv_invoices_pk : NoDup (map InvoiceRow.id (invoices s));
    inv_items_pk : NoDup (map InvoiceItemRow.id (invoice_items s));
    inv_invoice_no : NoDup (map InvoiceRow.invoice_no (invoices s));
    inv_invoices_seq : forall i, In i (invoices s) -> InvoiceRow.id i <= seq_invoices s;
    inv_items_seq :
      forall it, In it (invoice_items s) -> InvoiceItemRow.id it <= seq_invoice_items s;
    inv_invoice_not_null :
      forall i, In i (invoices s) ->
        isnan (InvoiceRow.tax i) = false /\ isnan (InvoiceRow.total i) = false;
    inv_item_not_null :
      forall it, In it (invoice_items s) ->
        isnan (InvoiceItemRow.quantity it) = false /\
        isnan (InvoiceItemRow.unit_price it) = false /\
        isnan (InvoiceItemRow.line_total it) = false;
    inv_invoice_client :
      forall i, In i (invoices s) ->
        In (InvoiceRow.client_id i) (map ClientRow.id (clients s));
    inv_item_invoice :
      forall it, In it (invoice_items s) ->
        In (InvoiceItemRow.invoice_id it) (map InvoiceRow.id (invoices s));
    inv_item_product :
      forall it, In it (invoice_items s) ->
        In (InvoiceItemRow.product_id it) (map ProductRow.id (products s)) }.

(** The rows of a page as a list handler answers it. *)
Definition rows_of {B} (r : (exn + list B * Pagination.t) * Store) : list B :=
  match fst r with
  | inr (rows, _) => rows
  | inl _ => []
  end.

(** An item of [get_invoice] read from a row of [invoice_items] and the
    product it names. *)
Definition item_of_row (products : list ProductRow.t) (it : InvoiceItemRow.t)
    (item : InvoiceItemResponse.t) : Prop :=
  InvoiceItemResponse.product_id item = InvoiceItemRow.product_id it /\
  InvoiceItemResponse.quantity item = InvoiceItemRow.quantity it /\
  InvoiceItemResponse.unit_price item = InvoiceItemRow.unit_price it /\
  InvoiceItemResponse.line_total item = InvoiceItemRow.line_total it /\
  exists p, In p products /\ ProductRow.id p = InvoiceItemRow.product_id it /\
            InvoiceItemResponse.product_name item = ProductRow.name p.

(** ** The database file and the migration script

    [migrations/002_invoicing_schema_and_seed.py] works on the file itself,
    where a table may not exist.  A table is its rows in rowid order and its
    row of [sqlite_sequence]; a table that was never created, or was
    dropped, is [None].  CREATE and DROP take effect at once, outside any
    transaction; the INSERT and DELETE statements of the two functions are
    followed by [conn.commit()] with no statement in between that can
    raise. *)

Module MigrationRow.
Record t := mk { id : Z; name : string; applied_at : string }.
End MigrationRow.

Module Table.
Record t (R : Type) := mk { rows : list R; seq : Z }.
Arguments mk {R}.
Arguments rows {R}.
Arguments seq {R}.
End Table.

Record Database := mkDatabase
  { _migrations : option (Table.t MigrationRow.t);
    products_table : option (Table.t ProductRow.t);
    clients_table : option (Table.t ClientRow.t);
    invoices_table : option (Table.t InvoiceRow.t);
    invoice_items_table : option (Table.t InvoiceItemRow.t) }.

(** The store the handlers see once the four tables exist. *)
Definition store_of (d : Database) : option Store :=
  match products_table d, clients_table d, invoices_table d, invoice_items_table d with
  | Some p, Some c, Some i, Some ii =>
      Some {| clients := Table.rows c; products := Table.rows p;
              invoices := Table.rows i; invoice_items := Table.rows ii;
              seq_invoices := Table.seq i; seq_invoice_items := Table.seq ii |}
  | _, _, _, _ => None
  end.

Inductive sqlite3_Error :=
| OperationalError (msg : string).

(** A script on an open connection to the file. *)
Definition Script (A : Type) : Type := Database -> (sqlite3_Error + A) * Database.

Definition done {A} (a : A) : Script A := fun d => (inr a, d).
Definition andthen {A B} (c : Script A) (k : A -> Script B) : Script B :=
  fun d => match c d with
           | (inr a, d') => k a d'
           | (inl e, d') => (inl e, d')
           end.

Declare Scope script_scope.
Delimit Scope script_scope with script.
Notation "x <- c ;; k" := (andthen c (fun x => k))
  (at level 100, c at next level, right associativity) : script_scope.
Notation "c ;;; k" := (andthen c (fun _ => k))
  (at level 100, right associativity) : script_scope.

(** [CREATE TABLE IF NOT EXISTS t (id INTEGER PRIMARY KEY AUTOINCREMENT, ...)] *)
Definition create_if_not_exists {R} (t : option (Table.t R)) : option (Table.t R) :=
  match t with
  | Some _ => t
  | None => Some (Table.mk [] 0)
  end.

(** [INSERT INTO t (...) VALUES (...)] into an AUTOINCREMENT table. *)
Definition insert_row {R} (id_of : R -> Z) (row : Z -> R) (t : Table.t R) : Table.t R :=
  let rowid := next_rowid (Table.seq t) (map id_of (Table.rows t)) in
  Table.mk (Table.rows t ++ [row rowid]) rowid.

Definition no_such_table {A} (table : string) : Script A :=
  fun d => (inl (OperationalError ("no such table: " ++ table)), d).

Definition _ensure_migrations_table : Script unit :=
  fun d => (inr tt,
            {| _migrations := create_if_not_exists (_migrations d);
               products_table := products_table d; clients_table := clients_table d;
               invoices_table := invoices_table d;
               invoice_items_table := invoice_items_table d |}).

(** [SELECT 1 FROM _migrations WHERE name = ?], then the truth of
    [cursor.fetchone()]. *)
Definition select_migration (name : string) : Script bool :=
  fun d => match _migrations d with
           | Some t =>
               (inr (existsb (fun m => String.eqb (MigrationRow.name m) name)
                             (Table.rows t)), d)
           | None => no_such_table "_migrations" d
           end.

(** The four [CREATE TABLE IF NOT EXISTS] statements of [upgrade]. *)
Definition create_tables : Script unit :=
  fun d => (inr tt,
            {| _migrations := _migrations d;
               products_table := create_if_not_exists (products_table d);
               clients_table := create_if_not_exists (clients_table d);
               invoices_table := create_if_not_exists (invoices_table d);
               invoice_items_table := create_if_not_exists (invoice_items_table d) |}).

(** [INSERT INTO products (name, price) VALUES (?, ?)] *)
Definition insert_product (row : string * float) : Script unit :=
  fun d => match products_table d with
           | Some t =>
               (inr tt,
                {| _migrations := _migrations d;
                   products_table :=
                     Some (insert_row ProductRow.id
                             (fun id => ProductRow.mk id (fst row) (snd row)) t);
                   clients_table := clients_table d;
                   invoices_table := invoices_table d;
                   invoice_items_table := invoice_items_table d |})
           | None => no_such_table "products" d
           end.

(** [INSERT INTO clients (name, address, company_registration_no)
     VALUES (?, ?, ?)] *)
Definition insert_client (row : string * string * string) : Script unit :=
  fun d => match clients_table d with
           | Some t =>
               (inr tt,
                {| _migrations := _migrations d;
                   products_table := products_table d;
                   clients_table :=
                     Some (insert_row ClientRow.id
                             (fun id => ClientRow.mk id (fst (fst row)) (snd (fst row))
                                          (snd row)) t);
                   invoices_table := invoices_table d;
                   invoice_items_table := invoice_items_table d |})
           | None => no_such_table "clients" d
           end.

(** [cursor.executemany(sql, rows)] *)
Fixpoint executemany {R} (statement : R -> Script unit) (rows : list R) : Script unit :=
  match rows with
  | [] => done tt
  | r :: rows' => andthen (statement r) (fun _ => executemany statement rows')
  end.

(** [INSERT INTO _migrations (name) VALUES (?)]; [applied_at] takes the
    time of the store's clock. *)
Definition insert_migration (name now : string) : Script unit :=
  fun d => match _migrations d with
           | Some t =>
               (inr tt,
                {| _migrations :=
                     Some (insert_row MigrationRow.id
                             (fun id => MigrationRow.mk id name now) t);
                   products_table := products_table d;
                   clients_table := clients_table d;
                   invoices_table := invoices_table d;
                   invoice_items_table := invoice_items_table d |})
           | None => no_such_table "_migrations" d
           end.

(** [upgrade()]; its result is the line it prints. *)
Definition upgrade (now : string) : Script string :=
  (_ensure_migrations_table ;;;
   applied <- select_migration "002_invoicing_schema_and_seed" ;;
   if (applied : bool)
   then done "Migration 002_invoicing_schema_and_seed already applied. Skipping."%string
   else
     create_tables ;;;
     executemany insert_product
       [ ("Widget A"%string, float_of_ratio false 1000 100);
         ("Widget B"%string, float_of_ratio false 2550 100);
         ("Service Hour"%string, float_of_ratio false 7500 100);
         ("License Fee"%string, float_of_ratio false 19900 100) ] ;;;
     executemany insert_client
       [ ("Acme Corp"%string, "123 Main St, City A"%string, "REG-001"%string);
         ("Beta Ltd"%string, "456 Oak Ave, City B"%string, "REG-002"%string);
         ("Gamma Inc"%string, "789 Pine Rd, City C"%string, "REG-003"%string) ] ;;;
     insert_migration "002_invoicing_schema_and_seed" now ;;;
     done "Migration 002_invoicing_schema_and_seed applied successfully."%string)%script.

(** The four [DROP TABLE IF EXISTS] statements of [downgrade]. *)
Definition drop_tables : Script unit :=
  fun d => (inr tt,
            {| _migrations := _migrations d;
               products_table := None; clients_table := None;
               invoices_table := None; invoice_items_table := None |}).

(** [DELETE FROM _migrations WHERE name = ?] *)
Definition delete_migration (name : string) : Script unit :=
  fun d => match _migrations d with
           | Some t =>
               (inr tt,
                {| _migrations :=
                     Some (Table.mk
                             (filter (fun m => negb (String.eqb (MigrationRow.name m) name))
                                     (Table.rows t))
                             (Table.seq t));
                   products_table := products_table d;
                   clients_table := clients_table d;
                   invoices_table := invoices_table d;
                   invoice_items_table := invoice_items_table d |})
           | None => no_such_table "_migrations" d
           end.

(** [downgrade()]; its result is the line it prints. *)
Definition downgrade : Script string :=
  (drop_tables ;;;
   delete_migration "002_invoicing_schema_and_seed" ;;;
   done "Migration 002_invoicing_schema_and_seed reverted successfully."%string)%script.


(** A table as a statement finds it after [CREATE TABLE IF NOT EXISTS]. *)
Definition or_empty {R} (t : option (Table.t R)) : Table.t R :=
  match t with
  | Some t => t
  | None => Table.mk [] 0
  end.


(** A new file: no table at all. *)
Definition new_file : Database :=
  {| _migrations := None; products_table := None; clients_table := None;
     invoices_table := None; invoice_items_table := None |}.


(** The file after [upgrade] on a new file. *)
Definition upgraded : Database :=
  Eval vm_compute in snd (upgrade "2025-02-01 09:00:00" new_file).

(** The four tables with no [_migrations] table beside them. *)
Definition unrecorded : Database :=
  {| _migrations := None;
     products_table := products_table upgraded; clients_table := clients_table upgraded;
     invoices_table := invoices_table upgraded;
     invoice_items_table := invoice_items_table upgraded |}.

(** ** [debug.py]: the state of the migrations and of the tables *)

(** A Python [dict] with string keys, in insertion order: [d[k] = v]. *)
Fixpoint dict_set {V} (k : string) (v : V) (d : list (string * V)) : list (string * V) :=
  match d with
  | [] => [(k, v)]
  | (k', v') :: d' =>
      if String.eqb k' k then (k', v) :: d' else (k', v') :: dict_set k v d'
  end.

(** [d.get(k)] *)
Definition dict_get {V} (k : string) (d : list (string * V)) : option V :=
  option_map snd (find (fun kv => String.eqb (fst kv) k) d).

(** [k in d] *)
Definition dict_in {V} (k : string) (d : list (string * V)) : bool :=
  existsb (fun kv => String.eqb (fst kv) k) d.

(** [{row[0]: row[1] for row in rows}] *)
Definition dict_of {V} (rows : list (string * V)) : list (string * V) :=
  fold_left (fun d row => dict_set (fst row) (snd row) d) rows [].

(** [SELECT name, applied_at FROM _migrations ORDER BY id], [fetchall()] *)
Definition select_migrations : Script (list (string * string)) :=
  fun d => match _migrations d with
           | Some t =>
               (inr (map (fun m => (MigrationRow.name m, MigrationRow.applied_at m))
                         (order_by MigrationRow.id (Table.rows t))), d)
           | None => no_such_table "_migrations" d
           end.

Definition is_digit (c : ascii) : bool :=
  ((48 <=? nat_of_ascii c) && (nat_of_ascii c <=? 57))%nat.

(** Whether a name ends with [".py"]. *)
Fixpoint endswith_py (s : string) : bool :=
  match s with
  | EmptyString => false
  | String _ rest => String.eqb s ".py" || endswith_py rest
  end.

(** The names that the pattern ["[0-9][0-9][0-9]_*.py"] of [glob.glob]
    matches. *)
Definition is_migration_file (name : string) : bool :=
  match name with
  | String a (String b (String c (String u rest))) =>
      is_digit a && is_digit b && is_digit c && Ascii.eqb u "_" && endswith_py rest
  | _ => false
  end.

(** [sorted(files)] on strings. *)
Fixpoint insert_sorted (a : string) (l : list string) : list string :=
  match l with
  | [] => [a]
  | b :: l' => if String.ltb a b then a :: b :: l' else b :: insert_sorted a l'
  end.

Definition sorted (l : list string) : list string := fold_right insert_sorted [] l.

(** [name.replace(".py", "")]: every occurrence of [".py"] is removed,
    from left to right. *)
Fixpoint remove_py (s : string) : string :=
  match s with
  | EmptyString => EmptyString
  | String c rest =>
      match rest with
      | String p (String y rest') =>
          if (Ascii.eqb c "." && Ascii.eqb p "p" && Ascii.eqb y "y")%bool
          then remove_py rest'
          else String c (remove_py rest)
      | _ => String c (remove_py rest)
      end
  end.

Module MigrationStatus.
Record t := mk { name : string; status : string; applied_at : option string }.
End MigrationStatus.

Module MigrationReport.
Record t := mk
  { migrations : list MigrationStatus.t; total : Z; applied : Z; pending : Z }.
End MigrationReport.

Definition len {A} (l : list A) : Z := Z.of_nat (List.length l).

(** [get_migration_status()].  [entries] are the names in the migrations
    directory, in the order the file system lists them; the paths that
    [glob.glob] returns share their directory, so they sort as the names
    do and [os.path.basename] gives the names back.  The two statements
    run under [get_db], which commits when the block ends; were one of
    them to raise, the handler would answer 500 with the message. *)
Definition get_migration_status (entries : list string) (d : Database)
  : (exn + MigrationReport.t) * Database :=
  match (andthen _ensure_migrations_table (fun _ => select_migrations)) d with
  | (inr rows, d') =>
      let applied := dict_of rows in
      let files := sorted (filter is_migration_file entries) in
      let migration_files := map remove_py files in
      let migrations_status :=
        map (fun mig_name =>
               MigrationStatus.mk mig_name
                 (if dict_in mig_name applied then "applied" else "pending")
                 (dict_get mig_name applied))
            migration_files in
      (inr (MigrationReport.mk migrations_status (len migration_files) (len applied)
              (len migration_files - len applied)), d')
  | (inl (OperationalError msg), _) => (inl (HTTPException 500 msg), d)
  end.

Module DatabaseStats.
Record t := mk
  { table_counts : list (string * option Z);
    database_size_bytes : option Z;
    database_path : string }.
End DatabaseStats.



(** [k in l] for a list of names. *)
Definition mem (k : string) (l : list string) : bool := existsb (String.eqb k) l.


(** ** [test_api.py]: the test of the invoices routes *)

(** The status code of a response: the one its route declares when the
    handler returns (201 for POST /invoices, 204 for DELETE, 200
    otherwise), the one of the [HTTPException] it raises, and 422 for a
    request the schema refuses. *)
Definition status_code (r : Request) (result : exn + Content) : Z :=
  match result with
  | inr _ =>
      match r with
      | Post_invoices _ => 201
      | Delete_invoice _ => 204
      | _ => 200
      end
  | inl (HTTPException sc _) => sc
  | inl (RequestValidationError _) => 422
  | inl _ => 500
  end.




(** * Facts *)

(** ** Facts about floats as the store keeps them *)

Lemma float_eq_refl (x : float) : isnan x = false -> float_eq x x = true.
Proof.
  destruct x as [s | s | | s m e]; simpl; intros H; try discriminate;
    unfold float_eq, SFeqb, SFcompare.
  - reflexivity.
  - destruct s; reflexivity.
  - rewrite Z.compare_refl.
    assert (Hm : Pos.compare_cont Eq m m = Eq) by apply Pos.compare_cont_refl.
    destruct s; rewrite Hm; reflexivity.
Qed.

Lemma sqlite_real_eq (x y : float) : sqlite_real x = Some y -> float_eq y x = true.
Proof.
  destruct x as [s | s | | s m e]; simpl; intros H; inversion H; subst.
  - reflexivity.
  - apply float_eq_refl. reflexivity.
  - apply float_eq_refl. reflexivity.
Qed.

Lemma not_null_inr (col : string) (x y : float) :
  not_null col x = inr y -> sqlite_real x = Some y.
Proof. unfold not_null. destruct (sqlite_real x); intros H; inversion H; reflexivity. Qed.

Lemma not_null_inl (col : string) (x : float) (e : exn) :
  not_null col x = inl e -> exists m, e = IntegrityError m.
Proof.
  unfold not_null. destruct (sqlite_real x); intros H; inversion H. eauto.
Qed.

(** ** Facts about lookups in a table *)

Lemma find_hd_filter {A} (f : A -> bool) (l : list A) :
  hd_error (filter f l) = find f l.
Proof.
  induction l as [| a l IH]; simpl; [reflexivity |].
  destruct (f a); [reflexivity | exact IH].
Qed.

Lemma find_none_iff {A} (f : A -> bool) (l : list A) :
  find f l = None <-> forall x, In x l -> f x = false.
Proof.
  split.
  - apply find_none.
  - induction l as [| a l IH]; simpl; intros H; [reflexivity |].
    rewrite (H a (or_introl eq_refl)). apply IH. intros x Hx. apply H. now right.
Qed.

Lemma filter_none {A} (f : A -> bool) (l : list A) :
  (forall x, In x l -> f x = false) -> filter f l = [].
Proof.
  induction l as [| a l IH]; simpl; intros H; [reflexivity |].
  rewrite (H a (or_introl eq_refl)). apply IH. intros x Hx. apply H. now right.
Qed.

Lemma filter_all {A} (f : A -> bool) (l : list A) :
  (forall x, In x l -> f x = true) -> filter f l = l.
Proof.
  induction l as [| a l IH]; simpl; intros H; [reflexivity |].
  rewrite (H a (or_introl eq_refl)). f_equal. apply IH. intros x Hx. apply H. now right.
Qed.

(** In a table with a primary key, the row found by its key is the only
    row with that key. *)
Lemma filter_unique {A} (key : A -> Z) (k : Z) (l : list A) (a : A) :
  NoDup (map key l) ->
  find (fun x => key x =? k) l = Some a ->
  filter (fun x => key x =? k) l = [a].
Proof.
  induction l as [| b l IH]; simpl; intros Hnd Hf; [discriminate |].
  inversion Hnd as [| ? ? Hnotin Hnd']; subst.
  destruct (key b =? k) eqn:Hk.
  - inversion Hf; subst. f_equal. apply filter_none.
    intros x Hx. apply Z.eqb_neq. intros Hx'. apply Hnotin.
    apply Z.eqb_eq in Hk. rewrite Hk, <- Hx'. now apply in_map.
  - now apply IH.
Qed.

Lemma next_rowid_gt (seq : Z) (ids : list Z) :
  seq < next_rowid seq ids /\ forall x, In x ids -> x < next_rowid seq ids.
Proof.
  unfold next_rowid. induction ids as [| a ids [IH1 IH2]]; simpl.
  - split; [lia | intros x []].
  - split; [lia |]. intros x [-> | Hx]; [lia |]. specialize (IH2 x Hx). lia.
Qed.

(** ** What the statements and the loops of [create_invoice] do *)

Lemma insert_invoice_inr no issue due cid addr tax total s rowid s' :
  insert_invoice no issue due cid addr tax total s = (inr rowid, s') ->
  exists tax' total',
    sqlite_real tax = Some tax' /\ sqlite_real total = Some total' /\
    existsb (fun i => String.eqb (InvoiceRow.invoice_no i) no) (invoices s) = false /\
    rowid = next_rowid (seq_invoices s) (map InvoiceRow.id (invoices s)) /\
    s' = {| clients := clients s; products := products s;
            invoices := invoices s ++
              [InvoiceRow.mk rowid no issue due cid addr tax' total'];
            invoice_items := invoice_items s;
            seq_invoices := rowid;
            seq_invoice_items := seq_invoice_items s |}.
Proof.
  unfold insert_invoice.
  destruct (not_null "invoices.tax" tax) as [e | tax'] eqn:Ht; [discriminate |].
  destruct (not_null "invoices.total" total) as [e | total'] eqn:Hto; [discriminate |].
  destruct (existsb _ (invoices s)) eqn:Hex; [discriminate |].
  intros H. inversion H; subst. exists tax', total'.
  repeat split; eauto using not_null_inr.
Qed.

Lemma insert_invoice_inl no issue due cid addr tax total s e s' :
  insert_invoice no issue due cid addr tax total s = (inl e, s') ->
  s' = s /\ exists m, e = IntegrityError m.
Proof.
  unfold insert_invoice.
  destruct (not_null "invoices.tax" tax) as [e1 | tax'] eqn:Ht.
  { intros H; inversion H; subst. split; eauto using not_null_inl. }
  destruct (not_null "invoices.total" total) as [e2 | total'] eqn:Hto.
  { intros H; inversion H; subst. split; eauto using not_null_inl. }
  destruct (existsb _ (invoices s)); intros H; inversion H; subst. eauto.
Qed.

Lemma price_lines_store lines : forall sub rows s,
  snd (price_lines lines sub rows s) = s.
Proof.
  induction lines as [| line rest IH]; intros sub rows s; simpl; [reflexivity |].
  unfold bind, select_product at 1.
  destruct (find _ (products s)) as [prod |]; [| reflexivity].
  unfold Decimal_iadd.
  destruct (Decimal_add sub _) as [sub' |]; simpl; [apply IH | reflexivity].
Qed.

Lemma price_lines_inr lines : forall sub rows s sub' rows' s',
  price_lines lines sub rows s = (inr (sub', rows'), s') ->
  exists new,
    rows' = rows ++ new /\ Forall2 (priced s) lines new /\
    Decimal_sum sub (map (fun r => Decimal_of_str_float (line_total_of r)) new)
      = Some sub'.
Proof.
  induction lines as [| line rest IH]; intros sub rows s sub' rows' s' H; simpl in H.
  - inversion H; subst. exists []. rewrite app_nil_r. repeat split. constructor.
  - unfold bind, select_product at 1 in H.
    destruct (find _ (products s)) as [prod |] eqn:Hf; [| discriminate].
    unfold Decimal_iadd in H.
    destruct (Decimal_add sub _) as [sub1 |] eqn:Ha; simpl in H; [| discriminate].
    apply IH in H. destruct H as (new & -> & Hall & Hsum).
    eexists (_ :: new). rewrite <- app_assoc. simpl. split; [reflexivity |]. split.
    + constructor; [| exact Hall]. exists prod. split; [exact Hf | reflexivity].
    + unfold line_total_of at 1. simpl. rewrite Ha. exact Hsum.
Qed.

Lemma insert_invoice_item_inr iid pid q up lt s s' :
  insert_invoice_item iid pid q up lt s = (inr tt, s') ->
  exists it,
    stored_as iid (pid, EmptyString, q, up, lt) it /\
    InvoiceItemRow.id it
      = next_rowid (seq_invoice_items s) (map InvoiceItemRow.id (invoice_items s)) /\
    s' = {| clients := clients s; products := products s; invoices := invoices s;
            invoice_items := invoice_items s ++ [it];
            seq_invoices := seq_invoices s;
            seq_invoice_items := InvoiceItemRow.id it |}.
Proof.
  unfold insert_invoice_item.
  destruct (not_null _ q) as [e | q'] eqn:Hq; [discriminate |].
  destruct (not_null _ up) as [e | up'] eqn:Hup; [discriminate |].
  destruct (not_null _ lt) as [e | lt'] eqn:Hlt; [discriminate |].
  intros H. inversion H; subst.
  exists (InvoiceItemRow.mk
            (next_rowid (seq_invoice_items s) (map InvoiceItemRow.id (invoice_items s)))
            iid pid q' up' lt').
  split; [| split; reflexivity].
  simpl. repeat split; eauto using not_null_inr.
Qed.

Lemma insert_line_rows_inr iid rows : forall s s',
  insert_line_rows iid rows s = (inr tt, s') ->
  clients s' = clients s /\ products s' = products s /\
  invoices s' = invoices s /\ seq_invoices s' = seq_invoices s /\
  exists new, invoice_items s' = invoice_items s ++ new /\
              Forall2 (stored_as iid) rows new.
Proof.
  induction rows as [| r rest IH]; intros s s' H; simpl in H.
  - inversion H; subst. repeat split. exists []. rewrite app_nil_r. split; constructor.
  - destruct r as [[[[pid pn] q] up] lt]. unfold bind in H.
    destruct (insert_invoice_item iid pid q up lt s) as [[e | []] s1] eqn:Hi;
      [discriminate |].
    apply insert_invoice_item_inr in Hi. destruct Hi as (it & Hst & _ & ->).
    apply IH in H. simpl in H. destruct H as (Hc & Hp & Hi & Hs & new & Hit & Hall).
    repeat split; try assumption.
    exists (it :: new). rewrite Hit, <- app_assoc. split; [reflexivity |].
    constructor; assumption.
Qed.

(** A handler that returns normally returns what its block returned, and
    a handler that raises leaves the store as it found it. *)
Lemma handler_inr {A} (block : DB A) s a s' :
  except_reraise_500 (get_db block) s = (inr a, s') <-> block s = (inr a, s').
Proof.
  unfold except_reraise_500, get_db.
  destruct (block s) as [[e | a0] s0]; [destruct e |]; split; intros H;
    inversion H; reflexivity.
Qed.

Lemma handler_inl {A} (block : DB A) s e s' :
  except_reraise_500 (get_db block) s = (inl e, s') ->
  s' = s /\ exists e0 s0, block s = (inl e0, s0) /\
     e = match e0 with
         | HTTPException sc d => HTTPException sc d
         | _ => HTTPException 500 (str_exn e0)
         end.
Proof.
  unfold except_reraise_500, get_db.
  destruct (block s) as [[e0 | a0] s0]; [| discriminate].
  destruct e0; intros H; inversion H; subst; split; eauto.
Qed.

Lemma handler_of_block_inl {A} (block : DB A) s e0 s0 :
  block s = (inl e0, s0) ->
  except_reraise_500 (get_db block) s
  = (inl match e0 with
         | HTTPException sc d => HTTPException sc d
         | _ => HTTPException 500 (str_exn e0)
         end, s).
Proof.
  unfold except_reraise_500, get_db. intros ->. destruct e0; reflexivity.
Qed.

(** The inverse reading of a creation that returned normally. *)
Lemma create_invoice_block_inr body s resp s' :
  create_invoice_block body s = (inr resp, s') ->
  exists client_row subtotal line_rows tax' total' new_items,
    let total := round (float_add (float_of_Decimal subtotal)
                                  (InvoiceCreate.tax body)) 2 in
    let rowid := next_rowid (seq_invoices s) (map InvoiceRow.id (invoices s)) in
    find (fun c => ClientRow.id c =? InvoiceCreate.client_id body) (clients s)
      = Some client_row /\
    price_lines (InvoiceCreate.items body) (DFinite false 0 0) [] s
      = (inr (subtotal, line_rows), s) /\
    sqlite_real (InvoiceCreate.tax body) = Some tax' /\
    sqlite_real total = Some total' /\
    existsb (fun i => String.eqb (InvoiceRow.invoice_no i) (InvoiceCreate.invoice_no body))
            (invoices s) = false /\
    resp = InvoiceResponse.mk rowid (InvoiceCreate.invoice_no body)
             (isoformat (InvoiceCreate.issue_date body))
             (isoformat (InvoiceCreate.due_date body))
             (_row_to_client_ref client_row) (InvoiceCreate.address body)
             (map item_response_of_line_row line_rows)
             (InvoiceCreate.tax body) total /\
    clients s' = clients s /\ products s' = products s /\
    invoices s' = invoices s ++
      [InvoiceRow.mk rowid (InvoiceCreate.invoice_no body)
         (isoformat (InvoiceCreate.issue_date body))
         (isoformat (InvoiceCreate.due_date body))
         (InvoiceCreate.client_id body) (InvoiceCreate.address body) tax' total'] /\
    invoice_items s' = invoice_items s ++ new_items /\
    Forall2 (stored_as rowid) line_rows new_items.
Proof.
  unfold create_invoice_block. unfold bind at 1. unfold select_client.
  destruct (find _ (clients s)) as [client_row |] eqn:Hc; [| discriminate].
  unfold bind at 1.
  destruct (price_lines _ _ _ s) as [[e | [subtotal line_rows]] s1] eqn:Hp;
    [discriminate |].
  assert (Hs1 : s1 = s).
  { pose proof (price_lines_store (InvoiceCreate.items body) (DFinite false 0 0) [] s) as E.
    rewrite Hp in E. exact E. }
  subst s1. simpl fst. simpl snd. unfold bind at 1.
  destruct (insert_invoice _ _ _ _ _ _ _ s) as [[e | rowid] s2] eqn:Hi; [discriminate |].
  apply insert_invoice_inr in Hi. destruct Hi as (tax' & total' & Ht & Hto & Hex & -> & ->).
  unfold bind at 1.
  destruct (insert_line_rows _ line_rows _) as [[e | []] s3] eqn:Hl; [discriminate |].
  apply insert_line_rows_inr in Hl. simpl in Hl.
  destruct Hl as (Hcl & Hpr & Hin & _ & new & Hit & Hall).
  unfold ret. intros H. inversion H; subst.
  exists client_row, subtotal, line_rows, tax', total', new. cbv zeta.
  repeat split; assumption.
Qed.

Lemma item_responses_line_totals (rows : list line_row) :
  map (fun i => Decimal_of_str_float (InvoiceItemResponse.line_total i))
      (map item_response_of_line_row rows)
  = map (fun r => Decimal_of_str_float (line_total_of r)) rows.
Proof.
  rewrite map_map. apply map_ext. intros [[[[pid pn] q] up] lt]. reflexivity.
Qed.

(** ** Line totals that cannot make the decimal sum raise *)

Lemma binary_round_aux_not_negative m e l :
  not_negative (binary_round_aux prec emax false m e l).
Proof.
  unfold binary_round_aux.
  destruct (shr_fexp prec emax m e l) as [mrs' e'].
  destruct (shr_fexp prec emax _ e' loc_Exact) as [mrs'' e''].
  destruct (shr_m mrs''); [exact I | | exact I].
  destruct (e'' <=? emax - prec); reflexivity.
Qed.

Lemma float_of_ratio_not_negative p q : not_negative (float_of_ratio false p q).
Proof.
  unfold float_of_ratio.
  destruct (SFdiv_core_binary prec emax (Z.pos p) 0 (Z.pos q) 0) as [[m e] l].
  apply binary_round_aux_not_negative.
Qed.

Lemma float_mul_not_negative x y :
  float_le zero x = true -> float_lt zero y = true -> not_negative (float_mul x y).
Proof.
  destruct x as [sx | [|] | | [|] mx ex]; destruct y as [sy | [|] | | [|] my ey];
    simpl; intros Hx Hy; try discriminate; auto.
  apply binary_round_aux_not_negative.
Qed.

Lemma round_not_negative x n : not_negative x -> not_negative (round x n).
Proof.
  destruct x as [s | s | | s m e]; simpl; auto. intros ->.
  destruct (div_half_even _ _); simpl; auto. apply float_of_ratio_not_negative.
Qed.


Lemma Decimal_add_not_minus_infinity a b :
  not_minus_infinity a -> not_minus_infinity b ->
  exists c, Decimal_add a b = Some c /\ not_minus_infinity c.
Proof.
  unfold not_minus_infinity.
  destruct a as [sa ca ea | [|] |]; destruct b as [sb cb eb | [|] |];
    intros Ha Hb; try congruence; simpl;
    try (eexists; split; [reflexivity | discriminate]).
  eexists. split; [reflexivity |]. unfold Decimal_fix.
  repeat match goal with |- context [if ?c then _ else _] => destruct c end;
    discriminate.
Qed.

(** ** Lines that resolve *)

Lemma find_existsb {A} (f : A -> bool) (l : list A) :
  existsb f l = match find f l with Some _ => true | None => false end.
Proof.
  induction l as [| a l IH]; simpl; [reflexivity |]. destruct (f a); simpl; auto.
Qed.




(** ** Reading back what was created *)

Lemma priced_has_product s lines rows :
  Forall2 (priced s) lines rows -> Forall (has_product (products s)) rows.
Proof.
  induction 1 as [| l r ls rs (prod & Hf & ->) _ IH]; constructor; [| exact IH].
  simpl. eauto.
Qed.

Lemma items_roundtrip products rowid rows new :
  NoDup (map ProductRow.id products) ->
  Forall (has_product products) rows ->
  Forall2 (stored_as rowid) rows new ->
  Forall2 same_item
    (map _row_to_invoice_item_response
       (flat_map (fun ii => map (fun p => (ii, p))
                    (filter (fun p => ProductRow.id p =? InvoiceItemRow.product_id ii)
                            products)) new))
    (map item_response_of_line_row rows).
Proof.
  intros Hnd Hhas Hst. induction Hst as [| r it rs its Hr _ IH]; simpl; [constructor |].
  inversion Hhas as [| ? ? Hr0 Hhas']; subst.
  destruct r as [[[[pid pn] q] up] lt]. simpl in Hr, Hr0.
  destruct Hr as (_ & Hpid & Hq & Hup & Hlt). destruct Hr0 as (prod & Hf & Hname).
  rewrite Hpid, (filter_unique ProductRow.id pid products prod Hnd Hf). simpl.
  constructor; [| exact (IH Hhas')].
  unfold same_item. simpl. repeat split; auto using sqlite_real_eq.
Qed.

Lemma hd_error_map {A B} (f : A -> B) (l : list A) :
  hd_error (map f l) = option_map f (hd_error l).
Proof. destruct l; reflexivity. Qed.

(** Reading back an invoice that was just created. *)
Lemma get_after_create body s resp s' :
  Store_wf s ->
  create_invoice_block body s = (inr resp, s') ->
  exists got,
    get_invoice (InvoiceResponse.id resp) s' = (inr got, s') /\
    InvoiceResponse.id got = InvoiceResponse.id resp /\
    InvoiceResponse.invoice_no got = InvoiceResponse.invoice_no resp /\
    InvoiceResponse.issue_date got = InvoiceResponse.issue_date resp /\
    InvoiceResponse.due_date got = InvoiceResponse.due_date resp /\
    InvoiceResponse.address got = InvoiceResponse.address resp /\
    InvoiceResponse.client got = InvoiceResponse.client resp /\
    Forall2 same_item (InvoiceResponse.items got) (InvoiceResponse.items resp) /\
    float_eq (InvoiceResponse.tax got) (InvoiceResponse.tax resp) = true /\
    float_eq (InvoiceResponse.total got) (InvoiceResponse.total resp) = true.
Proof.
  intros [Hpk Hfk] H. apply create_invoice_block_inr in H.
  destruct H as (client_row & subtotal & line_rows & tax' & total' & new_items & H).
  cbv zeta in H.
  destruct H as (Hc & Hp & Htax & Hto & _ & -> & Hcl & Hpr & Hinv & Hit & Hst).
  remember (next_rowid (seq_invoices s) (map InvoiceRow.id (invoices s)))
    as rowid eqn:Hrowid.
  apply price_lines_inr in Hp. destruct Hp as (new & Hrows & Hall & _).
  simpl in Hrows. subst new. apply priced_has_product in Hall.
  assert (Hold : forall x, In x (map InvoiceRow.id (invoices s)) -> (x =? rowid) = false).
  { intros x Hx. apply Z.eqb_neq. apply (next_rowid_gt (seq_invoices s)) in Hx.
    rewrite <- Hrowid in Hx. lia. }
  assert (Hsel : filter (fun i => InvoiceRow.id i =? rowid) (invoices s') =
                 [InvoiceRow.mk rowid (InvoiceCreate.invoice_no body)
                    (isoformat (InvoiceCreate.issue_date body))
                    (isoformat (InvoiceCreate.due_date body))
                    (InvoiceCreate.client_id body) (InvoiceCreate.address body)
                    tax' total']).
  { rewrite Hinv, filter_app. simpl. rewrite Z.eqb_refl, filter_none; [reflexivity |].
    intros i Hi. apply Hold. now apply in_map. }
  assert (Hitems : filter (fun ii => InvoiceItemRow.invoice_id ii =? rowid)
                     (invoice_items s') = new_items).
  { rewrite Hit, filter_app, filter_none, filter_all; [reflexivity | |].
    - intros it Hin. apply Z.eqb_eq.
      clear -Hst Hin. induction Hst as [| r it' rs its Hr _ IH]; [destruct Hin |].
      destruct Hin as [<- | Hin]; [| exact (IH Hin)].
      destruct r as [[[[pid pn] q] up] lt]. apply Hr.
    - intros it Hin. apply Hold, Hfk, Hin. }
  eexists. split.
  - unfold get_invoice. apply handler_inr.
    unfold get_invoice_block, bind, select_invoice_with_client, select_items_with_product.
    cbn [InvoiceResponse.id]. rewrite Hsel, Hcl. cbn [flat_map].
    rewrite app_nil_r, hd_error_map, find_hd_filter. cbn [InvoiceRow.client_id].
    rewrite Hc. cbn [option_map]. cbv beta iota. rewrite Hitems, Hpr. reflexivity.
  - simpl. repeat split; auto using sqlite_real_eq.
    apply (items_roundtrip _ rowid); assumption.
Qed.

(** ** What a creation can raise *)

Lemma price_lines_inl lines : forall sub rows s e s',
  price_lines lines sub rows s = (inl e, s') ->
  e = InvalidOperation \/
  exists line, In line lines /\ resolves s line = false /\
    e = HTTPException 400
          ("Invalid product_id: " ++ str_int (InvoiceItemCreate.product_id line)).
Proof.
  induction lines as [| line rest IH]; intros sub rows s e s' H; simpl in H.
  - discriminate.
  - unfold bind, select_product at 1 in H.
    destruct (find _ (products s)) as [prod |] eqn:Hf.
    + unfold Decimal_iadd in H.
      destruct (Decimal_add sub _) as [sub1 |]; simpl in H.
      * apply IH in H. destruct H as [H | (l & Hl & Hr & He)]; [now left | right].
        exists l. simpl. auto.
      * inversion H. now left.
    + assert (Hres : resolves s line = false).
      { unfold resolves. rewrite find_existsb, Hf. reflexivity. }
      inversion H; subst. right. exists line. simpl. repeat split; auto.
Qed.

Lemma insert_line_rows_inl iid rows : forall s e s',
  insert_line_rows iid rows s = (inl e, s') -> exists m, e = IntegrityError m.
Proof.
  induction rows as [| r rest IH]; intros s e s' H; simpl in H; [discriminate |].
  destruct r as [[[[pid pn] q] up] lt]. unfold bind in H.
  destruct (insert_invoice_item iid pid q up lt s) as [[e1 | []] s1] eqn:Hi.
  - inversion H; subst. revert Hi. unfold insert_invoice_item.
    repeat match goal with
           | |- context [match not_null ?c ?x with _ => _ end] =>
               let E := fresh "E" in destruct (not_null c x) eqn:E
           end; intros Hi; inversion Hi; subst; eauto using not_null_inl.
  - eapply IH, H.
Qed.




(** ** Reading and deleting by id *)



(** ** Pages *)

Section OrderByFacts.
Context {A : Type} (key : A -> Z).

Lemma insert_by_perm (a : A) (l : list A) : Permutation (insert_by key a l) (a :: l).
Proof.
  induction l as [| b l IH]; simpl; [reflexivity |].
  destruct (key a <? key b); [reflexivity |].
  rewrite IH. apply perm_swap.
Qed.

Lemma insert_by_sorted (a : A) (l : list A) :
  StronglySorted (key_le key) l -> StronglySorted (key_le key) (insert_by key a l).
Proof.
  induction 1 as [| b l Hs IH Hb]; simpl.
  - constructor; constructor.
  - destruct (key a <? key b) eqn:E.
    + apply Z.ltb_lt in E. constructor; [constructor; assumption |].
      constructor; [unfold key_le; lia |].
      eapply Forall_impl; [| exact Hb]. unfold key_le. intros; lia.
    + apply Z.ltb_ge in E. constructor; [exact IH |].
      apply (Permutation_Forall (Permutation_sym (insert_by_perm a l))).
      constructor; assumption.
Qed.

Lemma order_by_perm (l : list A) : Permutation (order_by key l) l.
Proof.
  induction l as [| a l IH]; simpl; [reflexivity |].
  rewrite insert_by_perm. now constructor.
Qed.

Lemma order_by_sorted (l : list A) : StronglySorted (key_le key) (order_by key l).
Proof.
  induction l as [| a l IH]; simpl; [constructor | now apply insert_by_sorted].
Qed.
End OrderByFacts.

Lemma total_pages_of_ceil total page_size :
  0 <= total -> 1 <= page_size ->
  is_ceil_div total page_size (total_pages_of total page_size).
Proof.
  intros Ht Hp. unfold is_ceil_div, total_pages_of.
  destruct (page_size =? 0) eqn:E; [apply Z.eqb_eq in E; lia |].
  pose proof (Z.div_mod (total + page_size - 1) page_size ltac:(lia)) as Hdm.
  pose proof (Z.mod_pos_bound (total + page_size - 1) page_size ltac:(lia)) as Hb.
  nia.
Qed.




(** ** The schema boundary *)

Lemma with_page_rejects {A} (handler : Z -> Z -> DB A) page page_size :
  (exists p, page = Some p /\ p < 1) \/
  (exists n, page_size = Some n /\ (n < 1 \/ 100 < n)) ->
  exists loc, forall s,
    with_page handler page page_size s = (inl (RequestValidationError loc), s).
Proof.
  unfold with_page, Query, MAX_PAGE_SIZE, DEFAULT_PAGE_SIZE.
  intros [(p & -> & Hp) | (n & -> & Hn)].
  - replace (1 <=? p) with false by (symmetry; apply Z.leb_gt; lia).
    eexists; intros s; reflexivity.
  - assert (E : ((1 <=? n) && (n <=? 100))%bool = false).
    { apply andb_false_iff.
      destruct Hn; [left; apply Z.leb_gt | right; apply Z.leb_gt]; lia. }
    destruct page as [p |].
    + destruct ((1 <=? p) && true)%bool; [rewrite E |];
        eexists; intros s; reflexivity.
    + rewrite E. eexists; intros s; reflexivity.
Qed.

(** ** The decimal accumulator *)

Lemma signed_mul s x y : signed s x * y = signed s (x * y).
Proof. destruct s; simpl; ring. Qed.

Lemma signed_abs v s :
  s = (if v =? 0 then false else v <? 0) \/ v = 0 -> signed s (Z.abs v) = v.
Proof.
  intros [-> | ->]; [| destruct s; reflexivity].
  destruct (v =? 0) eqn:E0; simpl.
  - apply Z.eqb_eq in E0. subst. reflexivity.
  - destruct (v <? 0) eqn:E; simpl; [apply Z.ltb_lt in E | apply Z.ltb_ge in E]; lia.
Qed.

Lemma Decimal_add_cents a b ca cb :
  Decimal_cents a = Some ca -> Decimal_cents b = Some cb ->
  Z.abs (ca + cb) < 10 ^ Decimal_prec ->
  exists c, Decimal_add a b = Some c /\ Decimal_cents c = Some (ca + cb).
Proof.
  destruct a as [sa xa ea | |]; destruct b as [sb xb eb | |];
    cbn [Decimal_cents]; try discriminate.
  destruct (-2 <=? ea) eqn:Ea; [| discriminate].
  destruct (-2 <=? eb) eqn:Eb; [| discriminate].
  apply Z.leb_le in Ea, Eb. intros Ha Hb Hfit. inversion Ha; inversion Hb; subst; clear Ha Hb.
  set (e := Z.min ea eb).
  set (v := signed sa (xa * 10 ^ (ea - e)) + signed sb (xb * 10 ^ (eb - e))).
  assert (He : -2 <= e) by (unfold e; lia).
  assert (Hv : v * 10 ^ (e + 2) = signed sa xa * 10 ^ (ea + 2) + signed sb xb * 10 ^ (eb + 2)).
  { unfold v. rewrite Z.mul_add_distr_r, !signed_mul, <- !Z.mul_assoc, <- !Z.pow_add_r
      by (unfold e; lia).
    replace (ea - e + (e + 2)) with (ea + 2) by lia.
    replace (eb - e + (e + 2)) with (eb + 2) by lia.
    rewrite <- !signed_mul. reflexivity. }
  assert (Hpow : 0 < 10 ^ (e + 2)) by (apply Z.pow_pos_nonneg; lia).
  assert (Habs : Z.abs v < 10 ^ Decimal_prec).
  { rewrite <- Hv, Z.abs_mul in Hfit. rewrite (Z.abs_eq (10 ^ (e + 2))) in Hfit by lia. nia. }
  eexists. split; [reflexivity |]. fold e. fold v. unfold Decimal_fix.
  apply Z.ltb_lt in Habs. rewrite Habs. cbn [Decimal_cents].
  replace (-2 <=? e) with true by (symmetry; apply Z.leb_le; exact He).
  f_equal. rewrite <- Hv. f_equal. apply signed_abs.
  destruct (v =? 0) eqn:E0; [right; apply Z.eqb_eq; exact E0 | left; reflexivity].
Qed.

Lemma Decimal_sum_cents ds : forall acc cacc cs,
  Decimal_cents acc = Some cacc ->
  map Decimal_cents ds = map Some cs ->
  Z.abs cacc + Zsum_abs cs < 10 ^ Decimal_prec ->
  exists r, Decimal_sum acc ds = Some r /\ Decimal_cents r = Some (cacc + Zsum cs).
Proof.
  induction ds as [| d ds IH]; intros acc cacc cs Hacc Hmap Hfit.
  - destruct cs; [| discriminate]. simpl. exists acc. rewrite Z.add_0_r. auto.
  - destruct cs as [| c cs]; [discriminate |]. simpl in Hmap.
    change (Zsum_abs (c :: cs)) with (Z.abs c + Zsum_abs cs) in Hfit.
    inversion Hmap as [[Hd Hmap']].
    assert (Hnn : 0 <= Zsum_abs cs).
    { clear. induction cs as [| c0 cs IH]; [unfold Zsum_abs; simpl; lia |].
      change (Zsum_abs (c0 :: cs)) with (Z.abs c0 + Zsum_abs cs). lia. }
    destruct (Decimal_add_cents acc d cacc c Hacc Hd) as (acc' & Hadd & Hacc'); [lia |].
    simpl. rewrite Hadd.
    destruct (IH acc' (cacc + c) cs Hacc' Hmap') as (r & Hr & Hcr); [lia |].
    exists r. split; [exact Hr |]. rewrite Hcr. f_equal.
    change (Zsum (c :: cs)) with (c + Zsum cs). ring.
Qed.

Lemma priced_items s lines rows :
  Forall2 (priced s) lines rows ->
  Forall2 (priced_item s) lines (map item_response_of_line_row rows).
Proof.
  induction 1 as [| l r ls rs (prod & Hf & ->) _ IH]; simpl; constructor; [| exact IH].
  exists prod. simpl. repeat split; auto.
Qed.

(** ** The schema constraints are kept by the handlers *)

Lemma Store_wf_create body s resp s' :
  Store_wf s -> create_invoice body s = (inr resp, s') -> Store_wf s'.
Proof.
  intros [Hpk Hfk] H. apply (proj1 (handler_inr _ _ _ _)) in H.
  apply create_invoice_block_inr in H.
  destruct H as (client_row & subtotal & line_rows & tax' & total' & new_items & H).
  cbv zeta in H. destruct H as (_ & _ & _ & _ & _ & _ & _ & Hpr & Hinv & Hit & Hst).
  constructor.
  - rewrite Hpr. exact Hpk.
  - intros it Hin. rewrite Hinv, map_app. apply in_or_app.
    rewrite Hit in Hin. apply in_app_or in Hin. destruct Hin as [Hin | Hin].
    + left. apply Hfk, Hin.
    + right. simpl. left.
      clear -Hst Hin. induction Hst as [| r it' rs its Hr _ IH]; [destruct Hin |].
      destruct Hin as [<- | Hin]; [| exact (IH Hin)].
      destruct r as [[[[pid pn] q] up] lt]. symmetry. apply Hr.
Qed.

Lemma Store_wf_delete s id s' :
  Store_wf s -> delete_invoice id s = (inr tt, s') -> Store_wf s'.
Proof.
  intros [Hpk Hfk] H. apply (proj1 (handler_inr _ _ _ _)) in H.
  unfold delete_invoice_block, bind, select_invoice_id in H.
  destruct (find _ (invoices s)); [| discriminate]. simpl in H.
  inversion H; subst; clear H. constructor; simpl.
  - exact Hpk.
  - intros it Hin. apply filter_In in Hin. destruct Hin as [Hin _].
    apply filter_In in Hin. destruct Hin as [Hin Hne].
    apply Hfk, in_map_iff in Hin. destruct Hin as (i & Hid & Hi).
    apply in_map_iff. exists i. split; [exact Hid |].
    apply filter_In. split; [exact Hi |]. rewrite Hid. exact Hne.
Qed.

Lemma seed_wf : Store_wf seed.
Proof.
  constructor; simpl.
  - repeat constructor; simpl; intuition discriminate.
  - intros it [].
Qed.

Lemma find_some_key {A} (key : A -> Z) (k : Z) (l : list A) (a : A) :
  find (fun x => key x =? k) l = Some a -> In a l /\ key a = k.
Proof.
  intros H. apply find_some in H. destruct H as [Hin Hk].
  split; [exact Hin | now apply Z.eqb_eq].
Qed.

Lemma find_by_key {A} (key : A -> Z) (l : list A) (a : A) :
  NoDup (map key l) -> In a l -> find (fun x => key x =? key a) l = Some a.
Proof.
  induction l as [| b l IH]; intros Hnd Hin; [destruct Hin |].
  simpl in *. inversion Hnd as [| k ks Hnotin Hnd']; subst.
  destruct Hin as [-> | Hin].
  - now rewrite Z.eqb_refl.
  - destruct (key b =? key a) eqn:E.
    + exfalso. apply Z.eqb_eq in E. apply Hnotin. rewrite E. now apply in_map.
    + now apply IH.
Qed.

Lemma get_client_found s id row :
  find (fun c => ClientRow.id c =? id) (clients s) = Some row ->
  get_client id s = (inr row, s).
Proof.
  intros H. unfold get_client. apply handler_inr.
  unfold get_client_block, bind, select_client. rewrite H. now destruct row.
Qed.

Lemma get_client_missing s id :
  find (fun c => ClientRow.id c =? id) (clients s) = None ->
  get_client id s = (inl (HTTPException 404 "Client not found"), s).
Proof.
  intros H. unfold get_client, except_reraise_500, get_db, get_client_block, bind, select_client.
  now rewrite H.
Qed.

Lemma get_product_found s id row :
  find (fun p => ProductRow.id p =? id) (products s) = Some row ->
  get_product id s = (inr row, s).
Proof.
  intros H. unfold get_product. apply handler_inr.
  unfold get_product_block, bind, select_product. rewrite H. now destruct row.
Qed.


(** ** Numbers that are not NaN *)








Lemma float_lt_zero_not_nan x : float_lt zero x = true -> isnan x = false.
Proof. destruct x; simpl; [reflexivity | reflexivity | discriminate | reflexivity]. Qed.




Lemma Decimal_of_str_float_nan x :
  isnan x = true -> Decimal_of_str_float x = DNaN.
Proof. destruct x; simpl; intros H; try discriminate. reflexivity. Qed.


Lemma Decimal_add_nan_l b : Decimal_add DNaN b = Some DNaN.
Proof. now destruct b. Qed.

Lemma Decimal_add_nan_r a : Decimal_add a DNaN = Some DNaN.
Proof. now destruct a. Qed.




(** ** Numbers that are not negative *)

Lemma float_add_not_negative x y :
  not_negative x -> not_negative y -> not_negative (float_add x y).
Proof.
  destruct x as [sx | sx | | sx mx ex]; destruct y as [sy | sy | | sy my ey];
    simpl; intros Hx Hy; subst; try reflexivity; try exact I.
  - destruct sx, sy; exact I.
  - unfold binary_normalize, binary_round. simpl.
    destruct (shl_align _ _ _) as [mz ez]. apply binary_round_aux_not_negative.
Qed.

Lemma not_negative_le x : not_negative x -> isnan x = false -> float_le zero x = true.
Proof.
  destruct x as [s | s | | s m e]; simpl; intros H N; subst; try discriminate; reflexivity.
Qed.

Lemma float_le_zero_not_negative x : float_le zero x = true -> not_negative x.
Proof.
  destruct x as [s | [|] | | [|] m e]; simpl; intros H; try discriminate; auto.
Qed.

Lemma div_half_even_nonneg a b : 0 <= a -> 0 <= b -> 0 <= div_half_even a b.
Proof.
  intros Ha Hb. unfold div_half_even.
  assert (0 <= a / b).
  { destruct (Z.eq_dec b 0) as [-> | Hne]; [now rewrite Z.div_0_r |].
    apply Z.div_pos; lia. }
  destruct (2 * (a mod b) ?= b); [destruct (Z.even _) | |]; lia.
Qed.

Lemma Decimal_fix_not_negative c e :
  0 <= c -> Decimal_not_negative (Decimal_fix false c e).
Proof.
  intros H. unfold Decimal_fix.
  destruct (c <? _); [simpl; split; [lia | discriminate] |].
  assert (H1 : 0 <= div_half_even c (10 ^ (nb_digits c - Decimal_prec))).
  { apply div_half_even_nonneg; [exact H |]. apply Z.pow_nonneg. lia. }
  destruct (_ <? _); simpl; (split; [| discriminate]); [lia |].
  apply Z.div_pos; lia.
Qed.

Lemma div_nonneg a b : 0 <= a -> 0 <= b -> 0 <= a / b.
Proof.
  intros Ha Hb. destruct (Z.eq_dec b 0) as [-> | Hne]; [now rewrite Z.div_0_r |].
  apply Z.div_pos; lia.
Qed.

Lemma digits_at_nonneg m e k j p : digits_at m e k = Some (j, p) -> 0 <= j.
Proof.
  unfold digits_at.
  set (num := Z.pos m * 2 ^ Z.max e 0 * 10 ^ Z.max (- (decpt_of m e - k)) 0).
  set (den := 2 ^ Z.max (- e) 0 * 10 ^ Z.max (decpt_of m e - k) 0).
  assert (Hn : 0 <= num).
  { subst num. repeat apply Z.mul_nonneg_nonneg; try lia; apply Z.pow_nonneg; lia. }
  assert (Hd : 0 <= den).
  { subst den. apply Z.mul_nonneg_nonneg; apply Z.pow_nonneg; lia. }
  pose proof (div_nonneg num den Hn Hd) as Hq.
  repeat match goal with
         | |- context [if ?c then _ else _] => destruct c
         | |- context [match ?c with Eq => _ | Lt => _ | Gt => _ end] => destruct c
         end; intros H; inversion H; lia.
Qed.

Lemma shortest_from_nonneg fuel m e : forall k, 0 <= fst (shortest_from fuel m e k).
Proof.
  induction fuel as [| fuel IH]; intros k; cbn [shortest_from].
  - cbv zeta. cbn [fst]. apply div_half_even_nonneg.
    + repeat apply Z.mul_nonneg_nonneg; try lia; apply Z.pow_nonneg; lia.
    + apply Z.mul_nonneg_nonneg; apply Z.pow_nonneg; lia.
  - destruct (digits_at m e k) as [[j p] |] eqn:E; [| apply IH].
    cbn [fst]. eapply digits_at_nonneg, E.
Qed.

Lemma strip_zeros_nonneg fuel : forall j p, 0 <= j -> 0 <= fst (strip_zeros fuel j p).
Proof.
  induction fuel as [| fuel IH]; intros j p H; simpl; [exact H |].
  destruct (_ && _)%bool; [| exact H]. apply IH, div_nonneg; lia.
Qed.

Lemma shortest_digits_nonneg m e : 0 <= fst (shortest_digits m e).
Proof.
  unfold shortest_digits.
  pose proof (shortest_from_nonneg 16 m e 1) as H.
  destruct (shortest_from 16 m e 1) as [j p]. apply strip_zeros_nonneg, H.
Qed.

Lemma Decimal_of_str_float_not_negative x :
  not_negative x -> Decimal_not_negative (Decimal_of_str_float x).
Proof.
  destruct x as [s | s | | s m e]; simpl; intros H; auto.
  - split; [lia | reflexivity].
  - subst. pose proof (shortest_digits_nonneg m e) as Hj.
    destruct (shortest_digits m e) as [j p]. simpl in Hj.
    destruct (_ && _)%bool; simpl; (split; [| discriminate]); [| exact Hj].
    apply Z.mul_nonneg_nonneg; [exact Hj | apply Z.pow_nonneg; lia].
Qed.

Lemma Decimal_add_not_negative a b c :
  Decimal_not_negative a -> Decimal_not_negative b ->
  Decimal_add a b = Some c -> Decimal_not_negative c.
Proof.
  destruct a as [sa ca ea | sa |]; destruct b as [sb cb eb | sb |]; simpl;
    intros Ha Hb H; subst; inversion H; subst; simpl; auto.
  destruct Ha as [Ha0 Ha1], Hb as [Hb0 Hb1]. clear H.
  assert (Hva : 0 <= signed sa (ca * 10 ^ (ea - Z.min ea eb))).
  { unfold signed. destruct sa; [rewrite (Ha1 eq_refl), Z.mul_0_l; lia |].
    apply Z.mul_nonneg_nonneg; [exact Ha0 | apply Z.pow_nonneg; lia]. }
  assert (Hvb : 0 <= signed sb (cb * 10 ^ (eb - Z.min ea eb))).
  { unfold signed. destruct sb; [rewrite (Hb1 eq_refl), Z.mul_0_l; lia |].
    apply Z.mul_nonneg_nonneg; [exact Hb0 | apply Z.pow_nonneg; lia]. }
  remember (signed sa _ + signed sb _) as v eqn:Hv.
  assert (Hv0 : 0 <= v) by lia. clear Hv Hva Hvb.
  destruct (v =? 0) eqn:E.
  - apply Z.eqb_eq in E. subst v. simpl Z.abs. unfold Decimal_fix.
    replace (0 <? 10 ^ Decimal_prec) with true by reflexivity.
    split; [apply Z.le_refl | reflexivity].
  - replace (v <? 0) with false by (symmetry; apply Z.ltb_ge; lia).
    apply Decimal_fix_not_negative. lia.
Qed.

Lemma float_of_Decimal_not_negative d :
  Decimal_not_negative d -> not_negative (float_of_Decimal d).
Proof.
  destruct d as [s c e | s |]; simpl; auto.
  intros [H0 H1]. destruct c as [| p | p]; [exact I | | exact I].
  destruct s; [specialize (H1 eq_refl); discriminate |].
  destruct (0 <=? e); apply float_of_ratio_not_negative.
Qed.

(** ** When the loops of [create_invoice] go through *)

Lemma Decimal_sum_nan ds : forall acc r,
  Decimal_sum acc ds = Some r -> acc = DNaN \/ In DNaN ds -> r = DNaN.
Proof.
  induction ds as [| d ds IH]; intros acc r H Hnan; simpl in H.
  - destruct Hnan as [-> | []]. congruence.
  - destruct (Decimal_add acc d) as [acc' |] eqn:E; [| discriminate].
    apply (IH acc' r H). destruct Hnan as [-> | [-> | Hin]].
    + rewrite Decimal_add_nan_l in E. left. congruence.
    + rewrite Decimal_add_nan_r in E. left. congruence.
    + now right.
Qed.


Lemma Decimal_sum_not_negative ds : forall acc r,
  Decimal_sum acc ds = Some r -> Decimal_not_negative acc ->
  Forall Decimal_not_negative ds -> Decimal_not_negative r.
Proof.
  induction ds as [| d ds IH]; intros acc r H Hacc Hds; simpl in H.
  - congruence.
  - destruct (Decimal_add acc d) as [acc' |] eqn:E; [| discriminate].
    inversion Hds; subst. apply (IH acc' r H); [| assumption].
    apply (Decimal_add_not_negative acc d acc'); assumption.
Qed.

Lemma Decimal_not_negative_not_minus_infinity d :
  Decimal_not_negative d -> not_minus_infinity d.
Proof. destruct d as [| [|] |]; simpl; intros H; unfold not_minus_infinity; congruence. Qed.

Lemma Decimal_sum_defined ds : forall acc,
  Decimal_not_negative acc -> Forall Decimal_not_negative ds ->
  exists r, Decimal_sum acc ds = Some r.
Proof.
  induction ds as [| d ds IH]; intros acc Hacc Hds; simpl; [eauto |].
  inversion Hds; subst.
  destruct (Decimal_add_not_minus_infinity acc d) as (c & Hc & _);
    auto using Decimal_not_negative_not_minus_infinity.
  rewrite Hc. apply IH; [| assumption].
  apply (Decimal_add_not_negative acc d c); assumption.
Qed.

Lemma sqlite_real_some x : isnan x = false -> exists y, sqlite_real x = Some y.
Proof. destruct x; simpl; intros H; try discriminate; eauto. Qed.

Lemma sqlite_real_not_nan x y : sqlite_real x = Some y -> isnan x = false.
Proof. destruct x; simpl; intros H; try discriminate; reflexivity. Qed.

Lemma not_null_ok col x : isnan x = false -> exists y, not_null col x = inr y.
Proof.
  intros H. unfold not_null. destruct (sqlite_real_some x H) as [y ->]. eauto.
Qed.

Lemma insert_line_rows_ok iid rows : forall s,
  Forall line_row_not_nan rows -> exists s', insert_line_rows iid rows s = (inr tt, s').
Proof.
  induction rows as [| r rows IH]; intros s H; simpl; [unfold ret; eauto |].
  inversion H as [| r0 rs Hr Hrows]; subst.
  destruct r as [[[[pid pn] q] up] lt]. destruct Hr as (Hq & Hup & Hlt).
  unfold bind, insert_invoice_item.
  destruct (not_null_ok "invoice_items.quantity" q Hq) as [q' ->].
  destruct (not_null_ok "invoice_items.unit_price" up Hup) as [up' ->].
  destruct (not_null_ok "invoice_items.line_total" lt Hlt) as [lt' ->].
  apply IH, Hrows.
Qed.


(** What the rows of [line_rows] are, read off the lines they price. *)
Lemma priced_line_total s line r :
  priced s line r ->
  exists prod, In prod (products s) /\
    ProductRow.id prod = InvoiceItemCreate.product_id line /\
    r = (InvoiceItemCreate.product_id line, ProductRow.name prod,
         InvoiceItemCreate.quantity line, ProductRow.price prod,
         round (float_mul (ProductRow.price prod) (InvoiceItemCreate.quantity line)) 2).
Proof.
  intros (prod & Hf & ->). exists prod.
  destruct (find_some_key _ _ _ _ Hf) as [Hin Hid]. auto.
Qed.

Lemma priced_rows_not_nan s lines rows :
  Forall2 (priced s) lines rows ->
  (forall p, In p (products s) -> isnan (ProductRow.price p) = false) ->
  (forall l, In l lines -> isnan (InvoiceItemCreate.quantity l) = false) ->
  (forall r, In r rows -> isnan (line_total_of r) = false) ->
  Forall line_row_not_nan rows.
Proof.
  intros Hall Hprices. induction Hall as [| l r ls rs Hlr Hrest IH]; intros Hqty Hlt;
    constructor.
  - pose proof (Hlt r (or_introl eq_refl)) as Hr.
    destruct (priced_line_total _ _ _ Hlr) as (prod & Hin & _ & ->).
    repeat split; [apply Hqty; now left | now apply Hprices | exact Hr].
  - apply IH.
    + intros l' Hl'. apply Hqty. now right.
    + intros r' Hr'. apply Hlt. now right.
Qed.

(** A NaN total is refused by the store, whatever the tax. *)
Lemma total_of_nan_subtotal tax :
  sqlite_real (round (float_add (float_of_Decimal DNaN) tax) 2) = None.
Proof. reflexivity. Qed.

(** When the block of [create_invoice] raises it has written nothing,
    provided no price and no quantity is NaN. *)
Lemma create_invoice_block_inl_store body s e s' :
  (forall p, In p (products s) -> isnan (ProductRow.price p) = false) ->
  (forall l, In l (InvoiceCreate.items body) ->
             isnan (InvoiceItemCreate.quantity l) = false) ->
  create_invoice_block body s = (inl e, s') -> s' = s.
Proof.
  intros Hprices Hqty. unfold create_invoice_block. unfold bind at 1. unfold select_client.
  destruct (find _ (clients s)) as [client_row |].
  2:{ intros H. now inversion H. }
  unfold bind at 1.
  pose proof (price_lines_store (InvoiceCreate.items body) (DFinite false 0 0) [] s) as Hst.
  destruct (price_lines _ _ _ s) as [[e1 | [subtotal line_rows]] s1] eqn:Hp;
    simpl in Hst; subst s1.
  { intros H. now inversion H. }
  simpl fst. simpl snd. unfold bind at 1.
  destruct (insert_invoice _ _ _ _ _ _ _ s) as [[e1 | rowid] s2] eqn:Hi.
  { intros H. inversion H; subst. now apply insert_invoice_inl in Hi. }
  unfold bind at 1.
  destruct (insert_line_rows _ line_rows _) as [[e1 | []] s3] eqn:Hl;
    [| unfold ret; discriminate].
  exfalso.
  apply insert_invoice_inr in Hi. destruct Hi as (tax' & total' & _ & Htot & _).
  apply price_lines_inr in Hp. destruct Hp as (new & Hnew & Hall & Hsum).
  simpl in Hnew. subst new.
  assert (Hsub : subtotal <> DNaN).
  { intros ->. rewrite total_of_nan_subtotal in Htot. discriminate. }
  assert (Hrows : Forall line_row_not_nan line_rows).
  { assert (Hlt : forall r, In r line_rows -> isnan (line_total_of r) = false).
    { intros r Hr. destruct (isnan (line_total_of r)) eqn:E; [| reflexivity].
      exfalso. apply Hsub. apply (Decimal_sum_nan _ _ _ Hsum). right.
      apply in_map_iff. exists r. split; [| exact Hr].
      now apply Decimal_of_str_float_nan. }
    apply (priced_rows_not_nan s (InvoiceCreate.items body)); assumption. }
  destruct (insert_line_rows_ok rowid line_rows s2 Hrows) as [s4 Hok].
  rewrite Hok in Hl. discriminate.
Qed.

Lemma priced_line_totals s lines rows :
  forallb (fun p => float_le zero (ProductRow.price p)) (products s) = true ->
  forallb InvoiceItemCreate_validate lines = true ->
  Forall2 (priced s) lines rows ->
  Forall (fun r => not_negative (line_total_of r)) rows.
Proof.
  intros Hprices Hq Hall. induction Hall as [| l r ls rs Hlr Hrest IH]; constructor.
  - destruct (priced_line_total _ _ _ Hlr) as (prod & Hin & _ & ->).
    unfold line_total_of. simpl snd. simpl in Hq. apply andb_prop in Hq.
    apply round_not_negative, float_mul_not_negative; [| apply Hq].
    rewrite forallb_forall in Hprices. now apply Hprices.
  - apply IH. simpl in Hq. apply andb_prop in Hq. apply Hq.
Qed.


(** The subtotal and the total of a request whose prices and quantities
    are not negative. *)
Lemma total_not_negative sub tax rows :
  Decimal_sum (DFinite false 0 0)
    (map (fun r => Decimal_of_str_float (line_total_of r)) rows) = Some sub ->
  Forall (fun r => not_negative (line_total_of r)) rows ->
  float_le zero tax = true ->
  not_negative (round (float_add (float_of_Decimal sub) tax) 2).
Proof.
  intros Hsum Hrows Htax.
  apply round_not_negative, float_add_not_negative;
    [| now apply float_le_zero_not_negative].
  apply float_of_Decimal_not_negative.
  apply (Decimal_sum_not_negative _ _ _ Hsum); [simpl; split; [lia | discriminate] |].
  apply Forall_map. eapply Forall_impl; [| exact Hrows].
  intros r. apply Decimal_of_str_float_not_negative.
Qed.




(** With the client found, what the block can raise. *)
Lemma create_invoice_block_client_found_inl body s c e s' :
  find (fun c => ClientRow.id c =? InvoiceCreate.client_id body) (clients s) = Some c ->
  create_invoice_block body s = (inl e, s') ->
  e = InvalidOperation \/ (exists m, e = IntegrityError m) \/
  exists line, In line (InvoiceCreate.items body) /\ resolves s line = false /\
    e = HTTPException 400
          ("Invalid product_id: " ++ str_int (InvoiceItemCreate.product_id line)).
Proof.
  intros Hc. unfold create_invoice_block. unfold bind at 1. unfold select_client.
  rewrite Hc. unfold bind at 1.
  destruct (price_lines _ _ _ s) as [[e1 | [subtotal line_rows]] s1] eqn:Hp.
  { intros H. inversion H; subst. apply price_lines_inl in Hp.
    destruct Hp as [-> | Hp]; auto. }
  simpl fst. simpl snd. unfold bind at 1.
  destruct (insert_invoice _ _ _ _ _ _ _ s1) as [[e1 | rowid] s2] eqn:Hi.
  { intros H. inversion H; subst. apply insert_invoice_inl in Hi.
    destruct Hi as [_ Hm]. auto. }
  unfold bind at 1.
  destruct (insert_line_rows _ line_rows _) as [[e1 | []] s3] eqn:Hl.
  { intros H. inversion H; subst. apply insert_line_rows_inl in Hl. auto. }
  unfold ret. discriminate.
Qed.

(** ** Pages as lists *)

Lemma list_rows_eq {A B} (table : Store -> list A) (key : A -> Z) (to_dict : A -> B)
    (page page_size : Z) (s : Store) :
  list_rows table key to_dict page page_size s
  = (inr (map to_dict
            (limit_offset page_size ((page - 1) * page_size) (order_by key (table s))),
          Pagination.mk (Z.of_nat (List.length (table s))) page page_size
            (total_pages_of (Z.of_nat (List.length (table s))) page_size)), s).
Proof. reflexivity. Qed.

Lemma In_firstn {A} (n : nat) (l : list A) (x : A) : In x (firstn n l) -> In x l.
Proof.
  intros H. rewrite <- (firstn_skipn n l). apply in_or_app. now left.
Qed.

Lemma In_skipn {A} (n : nat) (l : list A) (x : A) : In x (skipn n l) -> In x l.
Proof.
  intros H. rewrite <- (firstn_skipn n l). apply in_or_app. now right.
Qed.

Lemma In_limit_offset {A} (limit offset : Z) (l : list A) (x : A) :
  In x (limit_offset limit offset l) -> In x l.
Proof.
  unfold limit_offset. destruct (limit <? 0); intros H.
  - eapply In_skipn, H.
  - eapply In_skipn, In_firstn, H.
Qed.

Lemma In_page {A} (key : A -> Z) (limit offset : Z) (l : list A) (x : A) :
  In x (limit_offset limit offset (order_by key l)) -> In x l.
Proof.
  intros H. apply In_limit_offset in H.
  eapply Permutation_in; [apply order_by_perm | exact H].
Qed.

(** ** The steps of a creation that went through *)

Lemma create_invoice_block_steps body s resp s' :
  create_invoice_block body s = (inr resp, s') ->
  exists client_row subtotal line_rows s1,
    let total := round (float_add (float_of_Decimal subtotal)
                                  (InvoiceCreate.tax body)) 2 in
    find (fun c => ClientRow.id c =? InvoiceCreate.client_id body) (clients s)
      = Some client_row /\
    price_lines (InvoiceCreate.items body) (DFinite false 0 0) [] s
      = (inr (subtotal, line_rows), s) /\
    insert_invoice (InvoiceCreate.invoice_no body)
      (isoformat (InvoiceCreate.issue_date body))
      (isoformat (InvoiceCreate.due_date body))
      (InvoiceCreate.client_id body) (InvoiceCreate.address body)
      (InvoiceCreate.tax body) total s = (inr (InvoiceResponse.id resp), s1) /\
    insert_line_rows (InvoiceResponse.id resp) line_rows s1 = (inr tt, s') /\
    InvoiceResponse.items resp = map item_response_of_line_row line_rows.
Proof.
  unfold create_invoice_block. unfold bind at 1. unfold select_client.
  destruct (find _ (clients s)) as [client_row |] eqn:Hc; [| discriminate].
  unfold bind at 1.
  destruct (price_lines _ _ _ s) as [[e | [subtotal line_rows]] s1] eqn:Hp;
    [discriminate |].
  assert (Hs1 : s1 = s).
  { pose proof (price_lines_store (InvoiceCreate.items body) (DFinite false 0 0) [] s) as E.
    rewrite Hp in E. exact E. }
  subst s1. simpl fst. simpl snd. unfold bind at 1.
  destruct (insert_invoice _ _ _ _ _ _ _ s) as [[e | rowid] s2] eqn:Hi; [discriminate |].
  unfold bind at 1.
  destruct (insert_line_rows _ line_rows _) as [[e | []] s3] eqn:Hl; [discriminate |].
  unfold ret. intros H. inversion H; subst.
  exists client_row, subtotal, line_rows, s2. cbv zeta.
  cbn [InvoiceResponse.id InvoiceResponse.items]. auto.
Qed.

(** ** Keys of a table *)

Lemma filter_keeps_keys_distinct {Row Key : Type} (key : Row -> Key)
    (keep : Row -> bool) (rows : list Row) (Hkeys : NoDup (map key rows)) :
  NoDup (map key (filter keep rows)).
Proof.
  induction rows as [| r rows IH]; simpl in *; [constructor |].
  inversion Hkeys as [| k ks Hfresh Hrest]; subst.
  destruct (keep r); simpl; [constructor |]; auto.
  intros Hin. apply Hfresh. apply in_map_iff in Hin. destruct Hin as (b & Hb & Hin).
  apply filter_In in Hin. apply in_map_iff. exists b. tauto.
Qed.

Lemma NoDup_map_app_last {A} (f : A -> Z) (l : list A) (a : A) :
  NoDup (map f l) -> (forall x, In x l -> f x < f a) -> NoDup (map f (l ++ [a])).
Proof.
  intros Hnd Hlt. rewrite map_app. simpl.
  apply NoDup_app; [exact Hnd | constructor; [intros [] | constructor] |].
  intros x Hin [<- | []]. apply in_map_iff in Hin. destruct Hin as (y & Hy & Hin).
  specialize (Hlt y Hin). lia.
Qed.

Lemma next_rowid_above {A} (key : A -> Z) (seq : Z) (l : list A) x :
  In x l -> key x < next_rowid seq (map key l).
Proof.
  intros H. apply next_rowid_gt. now apply in_map.
Qed.

Lemma In_map_app_last {A B} (f : A -> B) (l : list A) (a : A) (y : B) :
  In y (map f l) -> In y (map f (l ++ [a])).
Proof. intros H. rewrite map_app. apply in_or_app. now left. Qed.

Lemma In_app_last {A} (P : A -> Prop) (l : list A) (a : A) :
  (forall x, In x l -> P x) -> P a -> forall x, In x (l ++ [a]) -> P x.
Proof.
  intros Hl Ha x Hin. apply in_app_or in Hin. destruct Hin as [Hin | [<- | []]]; auto.
Qed.

Lemma not_null_not_nan col x y : not_null col x = inr y -> isnan y = false.
Proof.
  unfold not_null. destruct x; simpl; intros H; inversion H; reflexivity.
Qed.

(** ** The handlers keep the constraints of the schema *)

Lemma Store_inv_insert_invoice no issue due cid addr tax total s rowid s' :
  Store_inv s ->
  In cid (map ClientRow.id (clients s)) ->
  insert_invoice no issue due cid addr tax total s = (inr rowid, s') ->
  Store_inv s' /\ In rowid (map InvoiceRow.id (invoices s')) /\
  clients s' = clients s /\ products s' = products s.
Proof.
  intros Hinv Hcid. unfold insert_invoice.
  destruct (not_null "invoices.tax" tax) as [e | tax'] eqn:Ht; [discriminate |].
  destruct (not_null "invoices.total" total) as [e | total'] eqn:Hto; [discriminate |].
  destruct (existsb _ (invoices s)) eqn:Hex; [discriminate |].
  intros H. inversion H; subst. clear H.
  set (rowid := next_rowid (seq_invoices s) (map InvoiceRow.id (invoices s))).
  destruct Hinv. split; [| split; [| split]]; cbn [clients products invoices]; auto.
  2:{ rewrite map_app. apply in_or_app. right. now left. }
  constructor; cbn [clients products invoices invoice_items seq_invoices
                    seq_invoice_items]; auto.
  - apply NoDup_map_app_last; [assumption |].
    intros x Hx. cbn [InvoiceRow.id]. now apply next_rowid_above.
  - rewrite map_app. simpl. apply NoDup_app; [assumption | repeat constructor; intros [] |].
    intros x Hin [<- | []]. cbn [InvoiceRow.invoice_no] in Hin.
    apply in_map_iff in Hin. destruct Hin as (i & Hi & Hin).
    rewrite find_existsb in Hex.
    destruct (find _ (invoices s)) eqn:Hf; [discriminate |].
    rewrite find_none_iff in Hf. specialize (Hf i Hin). simpl in Hf.
    rewrite Hi, String.eqb_refl in Hf. discriminate.
  - apply In_app_last.
    + intros x Hx. pose proof (next_rowid_above InvoiceRow.id (seq_invoices s) _ _ Hx).
      fold rowid in H. lia.
    + cbn [InvoiceRow.id]. lia.
  - apply In_app_last; [assumption |]. cbn [InvoiceRow.tax InvoiceRow.total].
    split; eapply not_null_not_nan; eassumption.
  - apply In_app_last; [assumption |]. exact Hcid.
  - intros it Hit. apply In_map_app_last. auto.
Qed.

Lemma Store_inv_insert_invoice_item iid pid q up lt s s' :
  Store_inv s ->
  In iid (map InvoiceRow.id (invoices s)) ->
  In pid (map ProductRow.id (products s)) ->
  insert_invoice_item iid pid q up lt s = (inr tt, s') ->
  Store_inv s' /\ clients s' = clients s /\ products s' = products s /\
  invoices s' = invoices s.
Proof.
  intros Hinv Hiid Hpid. unfold insert_invoice_item.
  destruct (not_null "invoice_items.quantity" q) as [e | q'] eqn:Hq; [discriminate |].
  destruct (not_null "invoice_items.unit_price" up) as [e | up'] eqn:Hup; [discriminate |].
  destruct (not_null "invoice_items.line_total" lt) as [e | lt'] eqn:Hlt; [discriminate |].
  intros H. inversion H; subst. clear H.
  set (rowid := next_rowid (seq_invoice_items s) (map InvoiceItemRow.id (invoice_items s))).
  destruct Hinv. split; [| cbn [clients products invoices]; auto].
  constructor; cbn [clients products invoices invoice_items seq_invoices
                    seq_invoice_items]; auto.
  - apply NoDup_map_app_last; [assumption |].
    intros x Hx. cbn [InvoiceItemRow.id]. now apply next_rowid_above.
  - apply In_app_last.
    + intros x Hx.
      pose proof (next_rowid_above InvoiceItemRow.id (seq_invoice_items s) _ _ Hx).
      fold rowid in H. lia.
    + cbn [InvoiceItemRow.id]. lia.
  - apply In_app_last; [assumption |].
    cbn [InvoiceItemRow.quantity InvoiceItemRow.unit_price InvoiceItemRow.line_total].
    repeat split; eapply not_null_not_nan; eassumption.
  - apply In_app_last; [assumption |]. exact Hiid.
  - apply In_app_last; [assumption |]. exact Hpid.
Qed.

Lemma Store_inv_insert_line_rows iid rows : forall s s',
  Store_inv s ->
  In iid (map InvoiceRow.id (invoices s)) ->
  Forall (fun r : line_row =>
            In (fst (fst (fst (fst r)))) (map ProductRow.id (products s))) rows ->
  insert_line_rows iid rows s = (inr tt, s') ->
  Store_inv s'.
Proof.
  induction rows as [| r rows IH]; intros s s' Hinv Hiid Hrows H; simpl in H.
  - inversion H. now subst.
  - destruct r as [[[[pid pn] q] up] lt]. unfold bind in H.
    destruct (insert_invoice_item iid pid q up lt s) as [[e | []] s1] eqn:Hi;
      [discriminate |].
    inversion Hrows as [| r0 rs Hpid Hrest]; subst. simpl in Hpid.
    destruct (Store_inv_insert_invoice_item _ _ _ _ _ _ _ Hinv Hiid Hpid Hi)
      as (Hinv1 & Hc & Hp & Hv).
    apply (IH s1 s' Hinv1); [now rewrite Hv | now rewrite Hp | exact H].
Qed.

Lemma find_In_key {A} (key : A -> Z) (k : Z) (l : list A) (a : A) :
  find (fun x => key x =? k) l = Some a -> In k (map key l).
Proof.
  intros H. destruct (find_some_key _ _ _ _ H) as [Hin <-]. now apply in_map.
Qed.

Lemma Store_inv_create_block body s resp s' :
  Store_inv s -> create_invoice_block body s = (inr resp, s') -> Store_inv s'.
Proof.
  intros Hinv H. apply create_invoice_block_steps in H.
  destruct H as (c & sub & rows & s1 & H). cbv zeta in H.
  destruct H as (Hc & Hp & Hi & Hl & _).
  destruct (Store_inv_insert_invoice _ _ _ _ _ _ _ _ _ _ Hinv (find_In_key _ _ _ _ Hc) Hi)
    as (Hinv1 & Hrow & Hcl & Hpr).
  apply (Store_inv_insert_line_rows _ rows s1 s' Hinv1 Hrow); [| exact Hl].
  apply price_lines_inr in Hp. destruct Hp as (new & Hnew & Hall & _).
  simpl in Hnew. subst new. rewrite Hpr.
  clear -Hall. induction Hall as [| l r ls rs Hlr _ IH]; constructor; [| exact IH].
  destruct Hlr as (prod & Hf & ->). simpl. eapply find_In_key, Hf.
Qed.

Lemma Store_inv_delete_block id s s' :
  Store_inv s -> delete_invoice_block id s = (inr tt, s') -> Store_inv s'.
Proof.
  intros Hinv. unfold delete_invoice_block, bind, select_invoice_id.
  destruct (find _ (invoices s)) as [i |]; simpl; [| discriminate].
  intros H. inversion H; subst. clear H. destruct Hinv.
  constructor; cbn [clients products invoices invoice_items seq_invoices
                    seq_invoice_items]; auto using filter_keeps_keys_distinct.
  - intros x Hx. apply filter_In in Hx. apply inv_invoices_seq0, Hx.
  - intros x Hx. apply filter_In in Hx. destruct Hx as [Hx _].
    apply filter_In in Hx. apply inv_items_seq0, Hx.
  - intros x Hx. apply filter_In in Hx. apply inv_invoice_not_null0, Hx.
  - intros x Hx. apply filter_In in Hx. destruct Hx as [Hx _].
    apply filter_In in Hx. apply inv_item_not_null0, Hx.
  - intros x Hx. apply filter_In in Hx. apply inv_invoice_client0, Hx.
  - intros x Hx. apply filter_In in Hx. destruct Hx as [Hx Hne].
    apply filter_In in Hx. destruct Hx as [Hx _].
    pose proof (inv_item_invoice0 x Hx) as Hin.
    apply in_map_iff in Hin. destruct Hin as (i0 & Hi0 & Hin).
    apply in_map_iff. exists i0. split; [exact Hi0 |].
    apply filter_In. split; [exact Hin |]. now rewrite Hi0.
  - intros x Hx. apply filter_In in Hx. destruct Hx as [Hx _].
    apply filter_In in Hx. apply inv_item_product0, Hx.
Qed.

Lemma handler_store {A} (block : DB A) s :
  snd (except_reraise_500 (get_db block) s) = s \/
  exists a, block s = (inr a, snd (except_reraise_500 (get_db block) s)).
Proof.
  unfold except_reraise_500, get_db.
  destruct (block s) as [[e | a] s1] eqn:E; [left; now destruct e | right; eauto].
Qed.

Lemma answer_store {A} (content : A -> Content) (h : DB A) s :
  snd (answer content h s) = snd (h s).
Proof. unfold answer, bind, ret. now destruct (h s) as [[e | a] s1]. Qed.

Lemma with_page_store {A B} (table : Store -> list A) (key : A -> Z) (f : A -> B) p ps s :
  snd (with_page (list_rows table key f) p ps s) = s.
Proof.
  unfold with_page. destruct (Query 1 1 None _ p); [reflexivity |].
  destruct (Query DEFAULT_PAGE_SIZE 1 _ _ ps); reflexivity.
Qed.

Lemma get_client_store id s : snd (get_client id s) = s.
Proof.
  unfold get_client, except_reraise_500, get_db, get_client_block, bind, select_client.
  now destruct (find _ (clients s)).
Qed.

Lemma get_product_store id s : snd (get_product id s) = s.
Proof.
  unfold get_product, except_reraise_500, get_db, get_product_block, bind, select_product.
  now destruct (find _ (products s)).
Qed.

Lemma get_invoice_store id s : snd (get_invoice id s) = s.
Proof.
  unfold get_invoice, except_reraise_500, get_db, get_invoice_block, bind,
    select_invoice_with_client, select_items_with_product.
  destruct (hd_error _) as [[i c] |]; reflexivity.
Qed.

(** What a request can do to the store: nothing, a creation, or a
    deletion. *)
Lemma app_store r s :
  snd (main.app r s) = s \/
  (exists body resp, create_invoice_block body s = (inr resp, snd (main.app r s))) \/
  (exists id, delete_invoice_block id s = (inr tt, snd (main.app r s))).
Proof.
  destruct r; unfold main.app; rewrite answer_store.
  - left. apply with_page_store.
  - left. apply get_client_store.
  - left. apply with_page_store.
  - left. apply get_product_store.
  - unfold POST_invoices. destruct (InvoiceCreate_validate body) as [e | b];
      [left; reflexivity |].
    destruct (handler_store (create_invoice_block b) s) as [H | [resp H]];
      [now left | right; left; eauto].
  - left. apply with_page_store.
  - left. apply get_invoice_store.
  - destruct (handler_store (delete_invoice_block invoice_id) s) as [H | [[] H]];
      [now left | right; right; eauto].
Qed.

Lemma Store_inv_app r s : Store_inv s -> Store_inv (snd (main.app r s)).
Proof.
  intros Hinv.
  destruct (app_store r s) as [-> | [(body & resp & H) | (id & H)]];
    eauto using Store_inv_create_block, Store_inv_delete_block.
Qed.

Lemma create_block_seed_tables body s resp s' :
  create_invoice_block body s = (inr resp, s') ->
  clients s' = clients s /\ products s' = products s /\
  seq_invoices s' = InvoiceResponse.id resp /\
  InvoiceResponse.id resp = next_rowid (seq_invoices s) (map InvoiceRow.id (invoices s)).
Proof.
  intros H. apply create_invoice_block_steps in H.
  destruct H as (c & sub & rows & s1 & H). cbv zeta in H.
  destruct H as (_ & _ & Hi & Hl & _).
  apply insert_invoice_inr in Hi. destruct Hi as (t1 & t2 & _ & _ & _ & Hid & ->).
  apply insert_line_rows_inr in Hl. simpl in Hl.
  destruct Hl as (Hc & Hp & _ & Hs & _). auto.
Qed.

Lemma delete_block_seed_tables id s s' :
  delete_invoice_block id s = (inr tt, s') ->
  clients s' = clients s /\ products s' = products s /\
  seq_invoices s' = seq_invoices s.
Proof.
  unfold delete_invoice_block, bind, select_invoice_id.
  destruct (find _ (invoices s)); simpl; [| discriminate].
  intros H. inversion H. auto.
Qed.

Lemma app_seed_tables r s :
  clients (snd (main.app r s)) = clients s /\ products (snd (main.app r s)) = products s /\
  seq_invoices s <= seq_invoices (snd (main.app r s)).
Proof.
  destruct (app_store r s) as [-> | [(body & resp & H) | (id & H)]].
  - repeat split; lia.
  - destruct (create_block_seed_tables _ _ _ _ H) as (Hc & Hp & -> & ->).
    repeat split; auto. pose proof (next_rowid_gt (seq_invoices s)
                                      (map InvoiceRow.id (invoices s))). lia.
  - destruct (delete_block_seed_tables _ _ _ H) as (Hc & Hp & ->).
    repeat split; auto. lia.
Qed.

Lemma run_seed_tables requests : forall s,
  clients (run requests s) = clients s /\ products (run requests s) = products s /\
  seq_invoices s <= seq_invoices (run requests s).
Proof.
  induction requests as [| r rs IH]; intros s; simpl; [repeat split; lia |].
  destruct (IH (snd (main.app r s))) as (Hc & Hp & Hs).
  destruct (app_seed_tables r s) as (Hc' & Hp' & Hs').
  unfold run in *. rewrite Hc, Hp. repeat split; auto. lia.
Qed.

Lemma seed_inv : Store_inv seed.
Proof.
  constructor; simpl; try (intros ? []);
    repeat (apply NoDup_cons; [simpl; intuition discriminate |]); apply NoDup_nil.
Qed.

(** ** Creation and deletion side by side *)

Lemma filter_app_last {A} (f : A -> bool) (l : list A) (a : A) :
  filter f (l ++ [a]) = filter f l ++ (if f a then [a] else []).
Proof. rewrite filter_app. reflexivity. Qed.

Lemma stored_as_invoice_id rowid rows new :
  Forall2 (stored_as rowid) rows new ->
  forall it, In it new -> InvoiceItemRow.invoice_id it = rowid.
Proof.
  intros Hall. induction Hall as [| r it rs its Hr _ IH]; intros x Hx; [destruct Hx |].
  destruct Hx as [<- | Hx]; [| now apply IH].
  destruct r as [[[[pid pn] q] up] lt]. apply Hr.
Qed.




(** What [get_invoice] answers, read off the two SELECT statements. *)
Lemma get_invoice_fst id s :
  fst (get_invoice id s)
  = match hd_error
            (flat_map
               (fun i => map (fun c => (i, c))
                  (filter (fun c => ClientRow.id c =? InvoiceRow.client_id i) (clients s)))
               (filter (fun i => InvoiceRow.id i =? id) (invoices s))) with
    | None => inl (HTTPException 404 "Invoice not found")
    | Some (i, c) =>
        inr (InvoiceResponse.mk (InvoiceRow.id i) (InvoiceRow.invoice_no i)
               (InvoiceRow.issue_date i) (InvoiceRow.due_date i)
               (ClientRef.mk (ClientRow.id c) (ClientRow.name c)
                  (ClientRow.address c) (ClientRow.company_registration_no c))
               (InvoiceRow.address i)
               (map _row_to_invoice_item_response
                  (flat_map
                     (fun ii => map (fun p => (ii, p))
                        (filter (fun p => ProductRow.id p =? InvoiceItemRow.product_id ii)
                                (products s)))
                     (filter (fun ii => InvoiceItemRow.invoice_id ii =? id)
                             (invoice_items s))))
               (InvoiceRow.tax i) (InvoiceRow.total i))
    end.
Proof.
  unfold get_invoice, except_reraise_500, get_db, get_invoice_block, bind,
    select_invoice_with_client, select_items_with_product.
  destruct (hd_error _) as [[i c] |]; reflexivity.
Qed.

(** The result of [get_invoice] depends on the rows of the invoice, on
    its items and on the seed tables only. *)
Lemma get_invoice_ext id s1 s2 :
  clients s1 = clients s2 -> products s1 = products s2 ->
  filter (fun i => InvoiceRow.id i =? id) (invoices s1)
  = filter (fun i => InvoiceRow.id i =? id) (invoices s2) ->
  filter (fun ii => InvoiceItemRow.invoice_id ii =? id) (invoice_items s1)
  = filter (fun ii => InvoiceItemRow.invoice_id ii =? id) (invoice_items s2) ->
  fst (get_invoice id s1) = fst (get_invoice id s2).
Proof.
  intros Hc Hp Hi Hit. rewrite !get_invoice_fst, Hc, Hp, Hi, Hit. reflexivity.
Qed.

(** ** Walking the pages *)

Lemma firstn_add {A} (a b : nat) (l : list A) :
  firstn (a + b) l = firstn a l ++ firstn b (skipn a l).
Proof.
  revert l. induction a as [| a IH]; intros l; simpl; [reflexivity |].
  destruct l as [| x l]; simpl; [now rewrite firstn_nil | now rewrite IH].
Qed.

Lemma limit_offset_page {A} (page_size : Z) (k : nat) (l : list A) :
  1 <= page_size ->
  limit_offset page_size ((Z.of_nat (S k) - 1) * page_size) l
  = firstn (Z.to_nat page_size) (skipn (k * Z.to_nat page_size) l).
Proof.
  intros H. unfold limit_offset.
  replace (page_size <? 0) with false by (symmetry; apply Z.ltb_ge; lia).
  f_equal. f_equal. nia.
Qed.

Lemma concat_pages {A} (page_size : Z) (l : list A) (k : nat) :
  1 <= page_size ->
  List.concat (map (fun p => limit_offset page_size ((Z.of_nat p - 1) * page_size) l)
              (seq 1 k))
  = firstn (k * Z.to_nat page_size) l.
Proof.
  intros H. induction k as [| k IH]; [reflexivity |].
  rewrite seq_S, map_app, concat_app, IH. cbn [map List.concat]. rewrite app_nil_r.
  change (1 + k)%nat with (S k). rewrite limit_offset_page by exact H.
  replace (S k * Z.to_nat page_size)%nat
    with (k * Z.to_nat page_size + Z.to_nat page_size)%nat by lia.
  symmetry. apply firstn_add.
Qed.

Lemma total_pages_of_covers total page_size :
  0 <= total -> 1 <= page_size -> total <= total_pages_of total page_size * page_size.
Proof.
  intros Ht Hp. pose proof (total_pages_of_ceil total page_size Ht Hp) as [_ H]. exact H.
Qed.

Lemma total_pages_of_nonneg total page_size :
  0 <= total -> 1 <= page_size -> 0 <= total_pages_of total page_size.
Proof.
  intros Ht Hp. unfold total_pages_of.
  replace (page_size =? 0) with false by (symmetry; apply Z.eqb_neq; lia).
  apply Z.div_pos; lia.
Qed.

Lemma order_by_length {A} (key : A -> Z) (l : list A) :
  List.length (order_by key l) = List.length l.
Proof. apply Permutation_length, order_by_perm. Qed.


(** ** Listing and fetching invoices *)

Lemma insert_by_app_last {A} (key : A -> Z) (b a : A) (l : list A) :
  key b < key a -> insert_by key b (l ++ [a]) = insert_by key b l ++ [a].
Proof.
  intros H. induction l as [| x l IH]; simpl.
  - now replace (key b <? key a) with true by (symmetry; apply Z.ltb_lt; exact H).
  - destruct (key b <? key x); [reflexivity | now rewrite IH].
Qed.

Lemma order_by_app_last {A} (key : A -> Z) (l : list A) (a : A) :
  (forall x, In x l -> key x < key a) -> order_by key (l ++ [a]) = order_by key l ++ [a].
Proof.
  unfold order_by. rewrite fold_right_app. simpl.
  induction l as [| b l IH]; intros H; simpl; [reflexivity |].
  rewrite IH by (intros x Hx; apply H; now right).
  apply insert_by_app_last, H. now left.
Qed.

Lemma limit_offset_last_page {A} (page_size : Z) (l : list A) (a : A) :
  1 <= page_size ->
  let n := Z.of_nat (List.length l) in
  limit_offset page_size (n / page_size * page_size) (l ++ [a])
  = skipn (Z.to_nat (n / page_size * page_size)) l ++ [a].
Proof.
  intros H n. unfold limit_offset.
  replace (page_size <? 0) with false by (symmetry; apply Z.ltb_ge; lia).
  pose proof (Z.mod_pos_bound n page_size ltac:(lia)) as Hmod.
  pose proof (Z.div_mod n page_size ltac:(lia)) as Hdiv.
  assert (Hn : 0 <= n) by apply Nat2Z.is_nonneg.
  assert (Hq : 0 <= n / page_size) by (apply Z.div_pos; lia).
  rewrite skipn_app.
  replace (Z.to_nat (n / page_size * page_size) - List.length l)%nat with 0%nat
    by (subst n; nia).
  simpl skipn. apply firstn_all2. rewrite length_app, length_skipn. simpl.
  subst n. nia.
Qed.

Lemma join_products products (its : list InvoiceItemRow.t) :
  NoDup (map ProductRow.id products) ->
  (forall it, In it its ->
     In (InvoiceItemRow.product_id it) (map ProductRow.id products)) ->
  Forall2 (item_of_row products) its
    (map _row_to_invoice_item_response
       (flat_map (fun ii => map (fun p => (ii, p))
                    (filter (fun p => ProductRow.id p =? InvoiceItemRow.product_id ii)
                            products)) its)).
Proof.
  intros Hnd. induction its as [| it its IH]; intros Hall; simpl; [constructor |].
  pose proof (Hall it (or_introl eq_refl)) as Hin.
  apply in_map_iff in Hin. destruct Hin as (p & Hid & Hp).
  assert (Hf : find (fun p => ProductRow.id p =? InvoiceItemRow.product_id it) products
               = Some p).
  { rewrite <- Hid. now apply find_by_key. }
  rewrite (filter_unique _ _ _ _ Hnd Hf). simpl. constructor.
  - unfold item_of_row, _row_to_invoice_item_response. simpl. repeat split.
    exists p. auto.
  - apply IH. intros x Hx. apply Hall. now right.
Qed.

(** On a store that meets the constraints of the schema, what [get_invoice]
    answers for a row of [invoices]. *)
Lemma get_invoice_of_row s i :
  Store_inv s -> In i (invoices s) ->
  exists c items,
    get_invoice (InvoiceRow.id i) s
    = (inr (InvoiceResponse.mk (InvoiceRow.id i) (InvoiceRow.invoice_no i)
              (InvoiceRow.issue_date i) (InvoiceRow.due_date i)
              (_row_to_client_ref c) (InvoiceRow.address i) items
              (InvoiceRow.tax i) (InvoiceRow.total i)), s) /\
    In c (clients s) /\ ClientRow.id c = InvoiceRow.client_id i /\
    Forall2 (item_of_row (products s))
      (filter (fun ii => InvoiceItemRow.invoice_id ii =? InvoiceRow.id i)
              (invoice_items s)) items.
Proof.
  intros Hinv Hi.
  pose proof (inv_invoice_client s Hinv i Hi) as Hc.
  apply in_map_iff in Hc. destruct Hc as (c & Hcid & Hc).
  assert (Hfc : find (fun c => ClientRow.id c =? InvoiceRow.client_id i) (clients s)
                = Some c).
  { rewrite <- Hcid. apply find_by_key; [apply (inv_clients_pk s Hinv) | exact Hc]. }
  assert (Hfi : find (fun x => InvoiceRow.id x =? InvoiceRow.id i) (invoices s) = Some i).
  { apply find_by_key; [apply (inv_invoices_pk s Hinv) | exact Hi]. }
  exists c. eexists. split; [| split; [exact Hc | split; [exact Hcid |]]].
  - rewrite (surjective_pairing (get_invoice (InvoiceRow.id i) s)).
    rewrite get_invoice_store, get_invoice_fst.
    rewrite (filter_unique _ _ _ _ (inv_invoices_pk s Hinv) Hfi). cbn [flat_map].
    rewrite (filter_unique _ _ _ _ (inv_clients_pk s Hinv) Hfc). cbn [map List.app hd_error].
    reflexivity.
  - apply join_products; [apply (inv_products_pk s Hinv) |].
    intros it Hit. apply filter_In in Hit. apply (inv_item_product s Hinv), Hit.
Qed.

(** ** The migration *)







(** ** Dictionaries, sorted names and counts *)

Lemma insert_sorted_perm a l : Permutation (insert_sorted a l) (a :: l).
Proof.
  induction l as [| b l IH]; simpl; [reflexivity |].
  destruct (String.ltb a b); [reflexivity |].
  rewrite IH. apply perm_swap.
Qed.

Lemma sorted_perm l : Permutation (sorted l) l.
Proof.
  induction l as [| a l IH]; simpl; [reflexivity |].
  rewrite insert_sorted_perm. now constructor.
Qed.

Lemma dict_in_iff {V} (k : string) (d : list (string * V)) :
  dict_in k d = true <-> In k (map fst d).
Proof.
  unfold dict_in. rewrite existsb_exists, in_map_iff. split.
  - intros (kv & Hin & E). apply String.eqb_eq in E. eauto.
  - intros (kv & E & Hin). exists kv. split; [exact Hin | now apply String.eqb_eq].
Qed.

Lemma dict_set_new {V} (k : string) (v : V) (d : list (string * V)) :
  ~ In k (map fst d) -> dict_set k v d = d ++ [(k, v)].
Proof.
  induction d as [| [k' v'] d IH]; simpl; intros H; [reflexivity |].
  destruct (String.eqb k' k) eqn:E.
  - apply String.eqb_eq in E. tauto.
  - rewrite IH by tauto. reflexivity.
Qed.

Lemma dict_of_acc {V} (rows : list (string * V)) : forall acc,
  NoDup (map fst (acc ++ rows)) ->
  fold_left (fun d row => dict_set (fst row) (snd row) d) rows acc = acc ++ rows.
Proof.
  induction rows as [| [k v] rows IH]; intros acc H; simpl; [now rewrite app_nil_r |].
  rewrite dict_set_new.
  - rewrite IH; rewrite <- app_assoc; [reflexivity | exact H].
  - rewrite map_app in H. simpl in H. apply NoDup_remove_2 in H.
    intros Hin. apply H. apply in_or_app. now left.
Qed.

(** With distinct names the dictionary is the list of the rows. *)
Lemma dict_of_unique {V} (rows : list (string * V)) :
  NoDup (map fst rows) -> dict_of rows = rows.
Proof. intros H. unfold dict_of. now rewrite dict_of_acc. Qed.

Lemma length_filter_split {A} (f : A -> bool) (l : list A) :
  (List.length (filter f l) + List.length (filter (fun x => negb (f x)) l)
   = List.length l)%nat.
Proof.
  induction l as [| a l IH]; simpl; [reflexivity |].
  destruct (f a); simpl; lia.
Qed.

Lemma mem_iff k l : mem k l = true <-> In k l.
Proof.
  unfold mem. rewrite existsb_exists. split.
  - intros (x & Hin & E). apply String.eqb_eq in E. now subst.
  - intros H. exists k. split; [exact H | apply String.eqb_refl].
Qed.

(** Two lists without repetition have as many elements of one in the
    other as of the other in the one. *)
Lemma common_count (l1 l2 : list string) :
  NoDup l1 -> NoDup l2 ->
  List.length (filter (fun k => mem k l2) l1) = List.length (filter (fun k => mem k l1) l2).
Proof.
  intros H1 H2. apply Permutation_length. apply NoDup_Permutation.
  - now apply NoDup_filter.
  - now apply NoDup_filter.
  - intros k. rewrite !filter_In, !mem_iff. tauto.
Qed.

Lemma missing_count (files names : list string) :
  NoDup files -> NoDup names ->
  Z.of_nat (List.length (filter (fun k => negb (mem k names)) files))
  = Z.of_nat (List.length files) - Z.of_nat (List.length names)
    + Z.of_nat (List.length (filter (fun k => negb (mem k files)) names)).
Proof.
  intros Hf Hn.
  pose proof (length_filter_split (fun k => mem k names) files) as E1.
  pose proof (length_filter_split (fun k => mem k files) names) as E2.
  pose proof (common_count files names Hf Hn) as E3. lia.
Qed.

Lemma order_by_map_perm {A} (key : A -> Z) (l : list A) {B} (f : A -> B) :
  Permutation (map f (order_by key l)) (map f l).
Proof. apply Permutation_map, order_by_perm. Qed.

(** What [get_migration_status] reads and writes: it creates
    [_migrations] when the table is missing and answers from its rows. *)
Lemma get_migration_status_eq entries d :
  get_migration_status entries d
  = (let rows := map (fun m => (MigrationRow.name m, MigrationRow.applied_at m))
                     (order_by MigrationRow.id (Table.rows (or_empty (_migrations d)))) in
     let applied := dict_of rows in
     let migration_files := map remove_py (sorted (filter is_migration_file entries)) in
     (inr (MigrationReport.mk
             (map (fun mig_name =>
                     MigrationStatus.mk mig_name
                       (if dict_in mig_name applied then "applied" else "pending")
                       (dict_get mig_name applied))
                  migration_files)
             (len migration_files) (len applied)
             (len migration_files - len applied)),
      {| _migrations := Some (or_empty (_migrations d));
         products_table := products_table d; clients_table := clients_table d;
         invoices_table := invoices_table d;
         invoice_items_table := invoice_items_table d |})).
Proof.
  unfold get_migration_status, andthen, _ensure_migrations_table, select_migrations.
  cbn [_migrations]. destruct (_migrations d) as [t |]; reflexivity.
Qed.






(** ** The requests of the test, one by one *)















(** * The properties of the specification *)



(** The scenario of the specification: line totals 20.00 and 25.50, total
    50.50. *)
Example seed_scenario :
  create_invoice payload seed = (inr seed_response, seed_after) /\
  map (fun i => Decimal_of_str_float (InvoiceItemResponse.line_total i))
      (InvoiceResponse.items seed_response)
  = [DFinite false 200 (-1); DFinite false 255 (-1)] /\
  Decimal_of_str_float (InvoiceResponse.total seed_response) = DFinite false 505 (-1).
Proof. vm_compute. repeat split. Qed.

(** With [sum] read as Python's binary sum of the returned line totals,
    the total is not always [round(sum + tax, 2)]: for line totals 0.1 and
    0.2 and tax 0.005 the handler returns 0.3, and the binary sum gives
    0.31.  The decimal accumulation of C1 is what the handler computes. *)
Example total_is_not_the_binary_sum :
  let resp := response_of (create_invoice dime_and_two seed) in
  map (fun i => Decimal_of_str_float (InvoiceItemResponse.line_total i))
      (InvoiceResponse.items resp) = [DFinite false 1 (-1); DFinite false 2 (-1)] /\
  Decimal_of_str_float (InvoiceResponse.total resp) = DFinite false 3 (-1) /\
  Decimal_of_str_float
    (round (float_add (float_sum (map InvoiceItemResponse.line_total
                                      (InvoiceResponse.items resp)))
                      (InvoiceCreate.tax dime_and_two)) 2) = DFinite false 31 (-2).
Proof. vm_compute. repeat split. Qed.

(** C2, as the code has it.  In a creation that succeeds each line total is
    Python's [round(unit_price * quantity, 2)] on binary floats, line by
    line, with the product's price as unit price.  The subtotal is the
    decimal accumulation of [Decimal(str(line_total))] in the default context
    of 28 digits, and the total is [round(float(subtotal) + tax, 2)]: no
    binary addition takes part in the subtotal.  When the line totals are
    whole hundredths whose absolute values add up to less than [10^28]
    hundredths, the subtotal is exactly their sum. *)
Theorem create_invoice_line_totals body s resp s' :
  create_invoice body s = (inr resp, s') ->
  Forall2 (priced_item s) (InvoiceCreate.items body) (InvoiceResponse.items resp) /\
  exists subtotal,
    Decimal_sum (DFinite false 0 0)
      (map (fun i => Decimal_of_str_float (InvoiceItemResponse.line_total i))
           (InvoiceResponse.items resp)) = Some subtotal /\
    InvoiceResponse.total resp
    = round (float_add (float_of_Decimal subtotal) (InvoiceCreate.tax body)) 2 /\
    forall cs,
      map Decimal_cents
        (map (fun i => Decimal_of_str_float (InvoiceItemResponse.line_total i))
             (InvoiceResponse.items resp)) = map Some cs ->
      Zsum_abs cs < 10 ^ Decimal_prec ->
      Decimal_cents subtotal = Some (Zsum cs).
Proof.
  intros H. apply (proj1 (handler_inr _ _ _ _)) in H.
  apply create_invoice_block_inr in H.
  destruct H as (client_row & subtotal & line_rows & tax' & total' & new_items & H).
  cbv zeta in H. destruct H as (_ & Hp & _ & _ & _ & -> & _).
  apply price_lines_inr in Hp. destruct Hp as (new & Hrows & Hall & Hsum).
  simpl in Hrows. subst line_rows. cbn [InvoiceResponse.items InvoiceResponse.total].
  split; [apply priced_items; exact Hall |].
  exists subtotal. rewrite item_responses_line_totals.
  split; [exact Hsum |]. split; [reflexivity |].
  intros cs Hcs Hfit.
  destruct (Decimal_sum_cents _ (DFinite false 0 0) 0 cs eq_refl Hcs) as (r & Hr & Hc).
  - simpl Z.abs. lia.
  - rewrite Hsum in Hr. inversion Hr; subst. rewrite Hc. reflexivity.
Qed.

Lemma create_invoice_line_totals_witness :
  create_invoice payload seed = (inr seed_response, seed_after) /\
  Forall2 (priced_item seed) (InvoiceCreate.items payload)
          (InvoiceResponse.items seed_response).
Proof.
  split; [vm_compute; reflexivity |].
  refine (proj1 (create_invoice_line_totals payload seed seed_response seed_after _)).
  vm_compute. reflexivity.
Defined.

(** C2 as stated fails twice on the seed data.  A thousandth of a Service
    Hour at 75.00 is 0.075: the handler's line total is 0.07, and rounding
    the decimal product to two decimals gives 0.08, half even and half up
    alike.  And for line totals 1e+27 and 0.01 the accumulated subtotal is
    [10^29] hundredths, not the [10^29 + 1] of the exact sum. *)
Lemma line_total_not_decimal_safe_subtotal_not_exact :
  (let unit_price := float_of_ratio false 7500 100 in
   let quantity := float_of_ratio false 1 1000 in
   let resp := response_of (create_invoice (one_line 3 quantity) seed) in
   fst (create_invoice (one_line 3 quantity) seed) = inr resp /\
   map (fun i => Decimal_of_str_float (InvoiceItemResponse.line_total i))
       (InvoiceResponse.items resp) = [DFinite false 7 (-2)] /\
   line_total_decimal_safe false unit_price quantity = Some (DFinite false 8 (-2)) /\
   line_total_decimal_safe true unit_price quantity = Some (DFinite false 8 (-2))) /\
  (let resp := response_of (create_invoice huge_and_small seed) in
   let line_totals :=
     map (fun i => Decimal_of_str_float (InvoiceItemResponse.line_total i))
         (InvoiceResponse.items resp) in
   fst (create_invoice huge_and_small seed) = inr resp /\
   map Decimal_cents line_totals = [Some (10 ^ 29); Some 1] /\
   exists subtotal,
     Decimal_sum (DFinite false 0 0) line_totals = Some subtotal /\
     Decimal_cents subtotal = Some (10 ^ 29) /\
     Decimal_cents subtotal <> Some (Zsum [10 ^ 29; 1])).
Proof.
  split.
  - vm_compute. repeat split.
  - cbv zeta. split; [vm_compute; reflexivity |]. split; [vm_compute; reflexivity |].
    exists (DFinite false (10 ^ 27) 0).
    split; [vm_compute; reflexivity |]. split; [vm_compute; reflexivity |].
    vm_compute. discriminate.
Qed.










(** Page 2 of size 10 of twelve invoices holds the eleventh and the
    twelfth by ascending id. *)
Example page_two_of_twelve :
  fst (list_invoices 2 10 twelve)
  = inr ([InvoiceSummary.mk 11 "INV-11" "2025-02-01" "2025-02-28" zero;
          InvoiceSummary.mk 12 "INV-12" "2025-02-01" "2025-02-28" zero],
         Pagination.mk 12 2 10 2).
Proof. vm_compute. reflexivity. Qed.



(** C8. Round trip: on a store that satisfies the schema, an invoice read
    back with the id of the creation response has the same client, the same
    priced items and the same total as that response, and the same number,
    dates and address. *)
Theorem get_invoice_after_create body s resp s' :
  Store_wf s ->
  create_invoice body s = (inr resp, s') ->
  exists got,
    get_invoice (InvoiceResponse.id resp) s' = (inr got, s') /\
    InvoiceResponse.client got = InvoiceResponse.client resp /\
    Forall2 same_item (InvoiceResponse.items got) (InvoiceResponse.items resp) /\
    float_eq (InvoiceResponse.total got) (InvoiceResponse.total resp) = true /\
    InvoiceResponse.id got = InvoiceResponse.id resp /\
    InvoiceResponse.invoice_no got = InvoiceResponse.invoice_no resp /\
    InvoiceResponse.issue_date got = InvoiceResponse.issue_date resp /\
    InvoiceResponse.due_date got = InvoiceResponse.due_date resp /\
    InvoiceResponse.address got = InvoiceResponse.address resp.
Proof.
  intros Hwf H. apply (proj1 (handler_inr _ _ _ _)) in H.
  destruct (get_after_create body s resp s' Hwf H)
    as (got & Hg & Hid & Hno & Hi & Hd & Ha & Hc & Hit & _ & Hto).
  exists got. repeat split; assumption.
Qed.

Lemma get_invoice_after_create_witness :
  Store_wf seed /\
  create_invoice payload seed = (inr seed_response, seed_after) /\
  exists got,
    get_invoice (InvoiceResponse.id seed_response) seed_after = (inr got, seed_after) /\
    InvoiceResponse.client got = InvoiceResponse.client seed_response.
Proof.
  assert (H : create_invoice payload seed = (inr seed_response, seed_after))
    by (vm_compute; reflexivity).
  split; [exact seed_wf |]. split; [exact H |].
  destruct (get_invoice_after_create payload seed seed_response seed_after seed_wf H)
    as (got & Hg & Hc & _).
  exists got. split; assumption.
Defined.

(** C9, as the code has it.  A [page] below 1 or a [page_size] outside
    1..100 given to a list endpoint, and an empty [items], a quantity that
    is not above 0 or a tax that is not at least 0 given to POST /invoices,
    are answered with a validation error that does not depend on the store,
    and the store is left as it was: nothing is clamped or replaced by a
    default.  The model puts no constraint on [invoice_no]. *)
Theorem out_of_range_rejected :
  (forall page page_size,
     (exists p, page = Some p /\ p < 1) \/
     (exists n, page_size = Some n /\ (n < 1 \/ 100 < n)) ->
     (exists loc, forall s,
        GET_clients page page_size s = (inl (RequestValidationError loc), s)) /\
     (exists loc, forall s,
        GET_products page page_size s = (inl (RequestValidationError loc), s)) /\
     (exists loc, forall s,
        GET_invoices page page_size s = (inl (RequestValidationError loc), s))) /\
  (forall j,
     InvoiceCreateJSON.items j = [] \/
     (exists i, In i (InvoiceCreateJSON.items j) /\
                float_lt zero (InvoiceItemCreate.quantity i) = false) \/
     (exists t, InvoiceCreateJSON.tax j = Some t /\ float_le zero t = false) ->
     exists loc,
       error_kind (RequestValidationError loc) = ValidationError /\
       forall s, POST_invoices j s = (inl (RequestValidationError loc), s)).
Proof.
  split.
  - intros page page_size H. split; [| split]; apply with_page_rejects; exact H.
  - intros j H. unfold POST_invoices, InvoiceCreate_validate.
    destruct (List.length (InvoiceCreateJSON.items j) <? 1)%nat eqn:El;
      [eexists; split; [reflexivity | intros s; reflexivity] |].
    destruct (forallb InvoiceItemCreate_validate (InvoiceCreateJSON.items j)) eqn:Ef;
      cbn [negb]; [| eexists; split; [reflexivity | intros s; reflexivity]].
    destruct H as [H | [(i & Hi & Hq) | (t & Ht & Hle)]].
    + rewrite H in El. discriminate.
    + rewrite forallb_forall in Ef. specialize (Ef i Hi).
      unfold InvoiceItemCreate_validate in Ef. congruence.
    + rewrite Ht, Hle. cbn [negb].
      eexists; split; [reflexivity | intros s; reflexivity].
Qed.

Lemma out_of_range_rejected_witness :
  (0 < 1 /\ 100 < 101) /\
  (exists loc, forall s,
     GET_invoices (Some 0) None s = (inl (RequestValidationError loc), s)) /\
  (exists loc, forall s,
     GET_clients None (Some 101) s = (inl (RequestValidationError loc), s)).
Proof.
  split; [lia |]. split.
  - refine (proj2 (proj2 (proj1 out_of_range_rejected (Some 0) None _))).
    left. exists 0. split; [reflexivity | lia].
  - refine (proj1 (proj1 out_of_range_rejected None (Some 101) _)).
    right. exists 101. split; [reflexivity | lia].
Defined.

(** C9 as stated fails: a request whose [invoice_no] is the empty string
    passes the schema and the invoice is created. *)
Lemma empty_invoice_no_accepted :
  InvoiceCreateJSON.invoice_no (payload_json EmptyString) = EmptyString /\
  exists resp s',
    POST_invoices (payload_json EmptyString) seed = (inr resp, s') /\
    InvoiceResponse.invoice_no resp = EmptyString /\
    List.length (invoices s') = 1%nat.
Proof.
  split; [reflexivity |].
  exists (response_of (POST_invoices (payload_json EmptyString) seed)),
         (snd (POST_invoices (payload_json EmptyString) seed)).
  vm_compute. repeat split.
Qed.



(** * Further properties of the code *)




(** X3. [create_invoice] checks its references as the lookups by id do.  It
    raises 400 "Invalid client_id" exactly when [get_client] answers 404 for
    the [client_id] of the request.  When it returns an invoice, the client
    of the invoice is the one [get_client] returns, and each item carries
    the name and the price that [get_product] returns for the product of its
    line at that time. *)
Theorem create_invoice_references body s :
  (create_invoice body s = (inl (HTTPException 400 "Invalid client_id"), s) <->
   get_client (InvoiceCreate.client_id body) s
   = (inl (HTTPException 404 "Client not found"), s)) /\
  (forall resp s', create_invoice body s = (inr resp, s') ->
     (exists c, get_client (InvoiceCreate.client_id body) s = (inr c, s) /\
                InvoiceResponse.client resp = _row_to_client_ref c) /\
     Forall2 (fun line item =>
                exists p, get_product (InvoiceItemCreate.product_id line) s = (inr p, s) /\
                          InvoiceItemResponse.product_id item = ProductRow.id p /\
                          InvoiceItemResponse.product_name item = ProductRow.name p /\
                          InvoiceItemResponse.unit_price item = ProductRow.price p)
             (InvoiceCreate.items body) (InvoiceResponse.items resp)).
Proof.
  split.
  - destruct (find (fun c => ClientRow.id c =? InvoiceCreate.client_id body) (clients s))
      as [c |] eqn:Hc.
    + split; intros H; exfalso.
      * apply handler_inl in H. destruct H as (_ & e0 & s0 & Hb & He).
        destruct (create_invoice_block_client_found_inl _ _ _ _ _ Hc Hb)
          as [-> | [(m & ->) | (line & _ & _ & ->)]]; simpl in He; discriminate.
      * rewrite (get_client_found _ _ _ Hc) in H. discriminate.
    + split; intros _; [now apply get_client_missing |].
      unfold create_invoice.
      assert (Hb : create_invoice_block body s
                   = (inl (HTTPException 400 "Invalid client_id"), s)).
      { unfold create_invoice_block, bind, select_client. now rewrite Hc. }
      now rewrite (handler_of_block_inl _ _ _ _ Hb).
  - intros resp s' H. apply (proj1 (handler_inr _ _ _ _)) in H.
    apply create_invoice_block_inr in H.
    destruct H as (c & sub & rows & t1 & t2 & new & H). cbv zeta in H.
    destruct H as (Hc & Hp & _ & _ & _ & -> & _). split.
    + exists c. split; [now apply get_client_found | reflexivity].
    + apply price_lines_inr in Hp. destruct Hp as (new' & Hnew & Hall & _).
      simpl in Hnew. subst new'. cbn [InvoiceResponse.items].
      clear -Hall. induction Hall as [| l r ls rs Hlr _ IH]; simpl; constructor; auto.
      destruct Hlr as (prod & Hf & ->). exists prod.
      destruct (find_some_key _ _ _ _ Hf) as [_ Hid].
      simpl. repeat split; auto using get_product_found.
Qed.

(** X4. A creation that fails has written nothing, without any rollback:
    when no stored price is NaN (the column is REAL NOT NULL) and the
    quantities passed the schema ([quantity > 0]), the block under
    [get_db] can only raise before its first INSERT or at that INSERT, so
    the store it leaves when it raises is the store it was given. *)
Theorem create_invoice_block_raises_before_writing body s e s' :
  forallb (fun p => negb (isnan (ProductRow.price p))) (products s) = true ->
  forallb InvoiceItemCreate_validate (InvoiceCreate.items body) = true ->
  create_invoice_block body s = (inl e, s') -> s' = s.
Proof.
  intros Hprices Hq. apply create_invoice_block_inl_store.
  - intros p Hp. rewrite forallb_forall in Hprices. apply Hprices in Hp.
    now apply negb_true_iff in Hp.
  - intros l Hl. rewrite forallb_forall in Hq. apply float_lt_zero_not_nan.
    now apply Hq.
Qed.

Lemma create_invoice_block_raises_before_writing_witness :
  forallb (fun p => negb (isnan (ProductRow.price p))) (products seed_after) = true /\
  forallb InvoiceItemCreate_validate (InvoiceCreate.items payload) = true /\
  exists e, create_invoice_block payload seed_after = (inl e, seed_after).
Proof.
  assert (H1 : forallb (fun p => negb (isnan (ProductRow.price p))) (products seed_after)
               = true) by (vm_compute; reflexivity).
  assert (H2 : forallb InvoiceItemCreate_validate (InvoiceCreate.items payload) = true)
    by (vm_compute; reflexivity).
  split; [exact H1 |]. split; [exact H2 |].
  destruct (create_invoice_block payload seed_after) as [[e | resp] s'] eqn:E.
  - exists e. f_equal.
    exact (create_invoice_block_raises_before_writing payload seed_after e s' H1 H2 E).
  - exfalso. vm_compute in E. discriminate.
Defined.



(** X6. No amount of a created invoice is negative.  On a store whose
    prices are not negative, for a request that passed the schema, each
    line total of the invoice returned and its total are numbers greater
    than or equal to zero, and so is the total the store keeps. *)
Theorem created_amounts_not_negative body s resp s' :
  forallb (fun p => float_le zero (ProductRow.price p)) (products s) = true ->
  forallb InvoiceItemCreate_validate (InvoiceCreate.items body) = true ->
  float_le zero (InvoiceCreate.tax body) = true ->
  create_invoice body s = (inr resp, s') ->
  Forall (fun item => float_le zero (InvoiceItemResponse.line_total item) = true)
         (InvoiceResponse.items resp) /\
  float_le zero (InvoiceResponse.total resp) = true /\
  exists before row,
    invoices s' = before ++ [row] /\
    InvoiceRow.id row = InvoiceResponse.id resp /\
    float_le zero (InvoiceRow.total row) = true.
Proof.
  intros Hprices Hq Htax H. apply (proj1 (handler_inr _ _ _ _)) in H.
  apply create_invoice_block_inr in H.
  destruct H as (c & sub & rows & tax' & total' & new & H). cbv zeta in H.
  destruct H as (_ & Hp & _ & Htot & _ & -> & _ & _ & Hinv & _).
  apply price_lines_inr in Hp. destruct Hp as (new' & Hnew & Hall & Hsum).
  simpl in Hnew. subst new'.
  pose proof (priced_line_totals _ _ _ Hprices Hq Hall) as Hsign.
  pose proof (total_not_negative _ _ _ Hsum Hsign Htax) as Htn.
  pose proof (sqlite_real_not_nan _ _ Htot) as Hnan.
  assert (Hsub : sub <> DNaN).
  { intros ->. rewrite total_of_nan_subtotal in Htot. discriminate. }
  cbn [InvoiceResponse.items InvoiceResponse.total InvoiceResponse.id].
  split; [| split].
  - apply Forall_map. rewrite Forall_forall in Hsign |- *. intros r Hr.
    destruct r as [[[[pid pn] q] up] lt] eqn:Er. cbn [item_response_of_line_row
      InvoiceItemResponse.line_total].
    apply not_negative_le; [exact (Hsign _ Hr) |].
    destruct (isnan lt) eqn:E; [| reflexivity]. exfalso. apply Hsub.
    apply (Decimal_sum_nan _ _ _ Hsum). right. apply in_map_iff.
    exists r. subst r. split; [| exact Hr]. now apply Decimal_of_str_float_nan.
  - now apply not_negative_le.
  - eexists _, _. split; [exact Hinv |]. split; [reflexivity |].
    cbn [InvoiceRow.total].
    assert (Hle : float_le zero (round (float_add (float_of_Decimal sub)
                                          (InvoiceCreate.tax body)) 2) = true)
      by now apply not_negative_le.
    revert Htot Hle. generalize (round (float_add (float_of_Decimal sub)
                                          (InvoiceCreate.tax body)) 2).
    intros x. destruct x as [sx | sx | | sx mx ex]; simpl; intros Hx Hle;
      inversion Hx; subst; auto.
Qed.

Lemma created_amounts_not_negative_witness :
  Forall (fun item => float_le zero (InvoiceItemResponse.line_total item) = true)
         (InvoiceResponse.items seed_response) /\
  float_le zero (InvoiceResponse.total seed_response) = true.
Proof.
  assert (H1 : forallb (fun p => float_le zero (ProductRow.price p)) (products seed) = true)
    by (vm_compute; reflexivity).
  assert (H2 : forallb InvoiceItemCreate_validate (InvoiceCreate.items payload) = true)
    by (vm_compute; reflexivity).
  assert (H4 : float_le zero (InvoiceCreate.tax payload) = true)
    by (vm_compute; reflexivity).
  assert (H : create_invoice payload seed = (inr seed_response, seed_after))
    by (vm_compute; reflexivity).
  destruct (created_amounts_not_negative payload seed seed_response seed_after H1 H2 H4 H)
    as (Ha & Hb & _).
  split; assumption.
Defined.

(** X7. The handlers keep every constraint the schema declares, whatever
    sequence of requests they serve and whether or not the store enforces
    foreign keys: primary keys and [invoice_no] stay unique, no stored
    amount is NULL, every invoice names a client that exists and every
    item an invoice and a product that exist.  The tables of clients and of
    products are never changed. *)
Theorem schema_constraints_are_kept requests s :
  Store_inv s ->
  Store_inv (run requests s) /\
  clients (run requests s) = clients s /\
  products (run requests s) = products s.
Proof.
  intros Hinv. split; [| destruct (run_seed_tables requests s) as (Hc & Hp & _); auto].
  revert s Hinv. induction requests as [| r rs IH]; intros s Hinv; simpl; [exact Hinv |].
  apply IH, Store_inv_app, Hinv.
Qed.

Lemma schema_constraints_are_kept_witness :
  Store_inv (run [Post_invoices (payload_json "INV-001"); Get_invoices None None;
                  Post_invoices (payload_json "INV-002"); Delete_invoice 1] seed).
Proof.
  exact (proj1 (schema_constraints_are_kept
                  [Post_invoices (payload_json "INV-001"); Get_invoices None None;
                   Post_invoices (payload_json "INV-002"); Delete_invoice 1]
                  seed seed_inv)).
Defined.

(** X8. The id of an invoice is never given again.  An invoice created
    after another one, whatever requests were served in between, deletions
    included, has a larger id. *)
Theorem invoice_ids_are_never_reused body1 body2 requests s r1 s1 r2 s2 :
  create_invoice body1 s = (inr r1, s1) ->
  create_invoice body2 (run requests s1) = (inr r2, s2) ->
  InvoiceResponse.id r1 < InvoiceResponse.id r2.
Proof.
  intros H1 H2. apply (proj1 (handler_inr _ _ _ _)) in H1, H2.
  destruct (create_block_seed_tables _ _ _ _ H1) as (_ & _ & Hs1 & _).
  destruct (create_block_seed_tables _ _ _ _ H2) as (_ & _ & _ & ->).
  destruct (run_seed_tables requests s1) as (_ & _ & Hle).
  pose proof (next_rowid_gt (seq_invoices (run requests s1))
                (map InvoiceRow.id (invoices (run requests s1)))) as [Hgt _].
  lia.
Qed.

Lemma invoice_ids_are_never_reused_witness :
  exists r2 s2,
    create_invoice payload (run [Delete_invoice 1] seed_after) = (inr r2, s2) /\
    invoices (run [Delete_invoice 1] seed_after) = [] /\
    InvoiceResponse.id seed_response < InvoiceResponse.id r2.
Proof.
  assert (H1 : create_invoice payload seed = (inr seed_response, seed_after))
    by (vm_compute; reflexivity).
  destruct (create_invoice payload (run [Delete_invoice 1] seed_after))
    as [[e | r2] s2] eqn:H2.
  - exfalso. vm_compute in H2. discriminate.
  - exists r2, s2. split; [reflexivity |]. split; [vm_compute; reflexivity |].
    exact (invoice_ids_are_never_reused payload payload [Delete_invoice 1]
             seed seed_response seed_after r2 s2 H1 H2).
Defined.



(** X10. Creating or deleting one invoice leaves the others as they
    were: whatever [get_invoice] answered for another id before a creation
    or a deletion that went through, it answers after it. *)
Theorem other_invoices_are_untouched s j :
  (forall body resp s1,
     create_invoice body s = (inr resp, s1) -> j <> InvoiceResponse.id resp ->
     fst (get_invoice j s1) = fst (get_invoice j s)) /\
  (forall i s1,
     delete_invoice i s = (inr tt, s1) -> j <> i ->
     fst (get_invoice j s1) = fst (get_invoice j s)).
Proof.
  split.
  - intros body resp s1 H Hj. apply (proj1 (handler_inr _ _ _ _)) in H.
    apply create_invoice_block_inr in H.
    destruct H as (c & sub & rows & tax' & total' & new & H). cbv zeta in H.
    destruct H as (_ & _ & _ & _ & _ & Hresp & Hc & Hp & Hinv & Hitems & Hall).
    subst resp. cbn [InvoiceResponse.id] in Hj.
    apply get_invoice_ext; auto.
    + rewrite Hinv, filter_app_last. cbn [InvoiceRow.id].
      replace (_ =? j) with false by (symmetry; apply Z.eqb_neq; lia).
      apply app_nil_r.
    + rewrite Hitems, filter_app, (filter_none _ new); [apply app_nil_r |].
      intros it Hit. rewrite (stored_as_invoice_id _ _ _ Hall it Hit).
      apply Z.eqb_neq. lia.
  - intros i s1 H Hj. apply (proj1 (handler_inr _ _ _ _)) in H.
    unfold delete_invoice_block, bind, select_invoice_id in H.
    destruct (find _ (invoices s)); simpl in H; [| discriminate].
    inversion H; subst. clear H.
    apply get_invoice_ext; cbn [clients products invoices invoice_items]; auto.
    + induction (invoices s) as [| a l IH]; simpl; [reflexivity |].
      destruct (InvoiceRow.id a =? i) eqn:Ei; destruct (InvoiceRow.id a =? j) eqn:Ej;
        simpl; rewrite ?Ej, ?IH; try reflexivity.
      apply Z.eqb_eq in Ei, Ej. lia.
    + induction (invoice_items s) as [| a l IH]; simpl; [reflexivity |].
      destruct (InvoiceItemRow.invoice_id a =? i) eqn:Ei;
        destruct (InvoiceItemRow.invoice_id a =? j) eqn:Ej;
        simpl; rewrite ?Ei; simpl; rewrite ?Ej, ?IH; try reflexivity.
      apply Z.eqb_eq in Ei, Ej. lia.
Qed.

(** X11. Walking the pages visits every row once.  For a page size of at
    least 1, the pages 1 to [total_pages] of a list handler, put one after
    the other, are the whole table in ascending order of id: no row is
    skipped and none is shown twice. *)
Theorem pages_cover_the_table {A B} (table : Store -> list A) (key : A -> Z)
    (to_dict : A -> B) (page_size : Z) (s : Store) :
  1 <= page_size ->
  let total_pages := total_pages_of (Z.of_nat (List.length (table s))) page_size in
  List.concat (map (fun page => rows_of (list_rows table key to_dict (Z.of_nat page) page_size s))
              (seq 1 (Z.to_nat total_pages)))
  = map to_dict (order_by key (table s)) /\
  Permutation (order_by key (table s)) (table s) /\
  StronglySorted (key_le key) (order_by key (table s)).
Proof.
  intros Hs total_pages. split; [| split; [apply order_by_perm | apply order_by_sorted]].
  erewrite map_ext; [| intros page; rewrite list_rows_eq; reflexivity].
  unfold rows_of. cbn [fst].
  rewrite <- (map_map (fun page => limit_offset page_size ((Z.of_nat page - 1) * page_size)
                                     (order_by key (table s))) (map to_dict)).
  rewrite <- concat_map. f_equal.
  rewrite concat_pages by exact Hs. apply firstn_all2.
  rewrite order_by_length.
  pose proof (total_pages_of_covers (Z.of_nat (List.length (table s))) page_size
                (Nat2Z.is_nonneg _) Hs) as Hc.
  pose proof (total_pages_of_nonneg (Z.of_nat (List.length (table s))) page_size
                (Nat2Z.is_nonneg _) Hs) as Hn.
  fold total_pages in Hc, Hn. nia.
Qed.

Lemma pages_cover_the_table_witness :
  List.concat (map (fun page => rows_of (list_invoices (Z.of_nat page) 5 twelve))
              (seq 1 (Z.to_nat (total_pages_of 12 5))))
  = map invoice_summary (order_by InvoiceRow.id (invoices twelve)).
Proof.
  exact (proj1 (pages_cover_the_table invoices InvoiceRow.id invoice_summary 5 twelve
                  ltac:(lia))).
Defined.



(** X13. A created invoice is listed last.  Right after a creation, the
    page of [list_invoices] that holds the row of rank [total] ends with
    the new invoice, under the id, the number, the dates and the total that
    the creation returned; [total] has grown by one. *)
Theorem created_invoice_is_listed_last body s resp s1 page_size :
  1 <= page_size ->
  create_invoice body s = (inr resp, s1) ->
  let n := Z.of_nat (List.length (invoices s)) in
  exists before row pg,
    list_invoices (n / page_size + 1) page_size s1 = (inr (before ++ [row], pg), s1) /\
    InvoiceSummary.id row = InvoiceResponse.id resp /\
    InvoiceSummary.invoice_no row = InvoiceResponse.invoice_no resp /\
    InvoiceSummary.issue_date row = InvoiceResponse.issue_date resp /\
    InvoiceSummary.due_date row = InvoiceResponse.due_date resp /\
    float_eq (InvoiceSummary.total row) (InvoiceResponse.total resp) = true /\
    Pagination.total pg = n + 1 /\
    Pagination.total_pages pg = n / page_size + 1.
Proof.
  intros Hs H n. apply (proj1 (handler_inr _ _ _ _)) in H.
  apply create_invoice_block_inr in H.
  destruct H as (c & sub & rows & tax' & total' & new & H). cbv zeta in H.
  destruct H as (_ & _ & _ & Htot & _ & Hresp & _ & _ & Hinv & _).
  set (rowid := next_rowid (seq_invoices s) (map InvoiceRow.id (invoices s))) in *.
  unfold list_invoices. rewrite list_rows_eq, Hinv.
  rewrite order_by_app_last.
  2:{ intros x Hx. cbn [InvoiceRow.id]. now apply next_rowid_above. }
  replace ((n / page_size + 1 - 1) * page_size) with (n / page_size * page_size) by lia.
  pose proof (limit_offset_last_page page_size (order_by InvoiceRow.id (invoices s))
                (InvoiceRow.mk rowid (InvoiceCreate.invoice_no body)
                   (isoformat (InvoiceCreate.issue_date body))
                   (isoformat (InvoiceCreate.due_date body))
                   (InvoiceCreate.client_id body) (InvoiceCreate.address body)
                   tax' total') Hs) as Hlast.
  cbv zeta in Hlast. rewrite order_by_length in Hlast. fold n in Hlast.
  rewrite Hlast, map_app. cbn [map].
  eexists _, _, _. split; [reflexivity |].
  subst resp. cbn. repeat split.
  - now apply sqlite_real_eq.
  - rewrite length_app. simpl. lia.
  - rewrite length_app. simpl List.length.
    replace (Z.of_nat (List.length (invoices s) + 1)) with (n + 1) by lia.
    unfold total_pages_of.
    replace (page_size =? 0) with false by (symmetry; apply Z.eqb_neq; lia).
    replace (n + 1 + page_size - 1) with (n + 1 * page_size) by lia.
    rewrite Z.div_add by lia. reflexivity.
Qed.

Lemma created_invoice_is_listed_last_witness :
  exists before row pg,
    list_invoices 1 10 seed_after = (inr (before ++ [row], pg), seed_after) /\
    InvoiceSummary.id row = InvoiceResponse.id seed_response /\
    Pagination.total pg = 1.
Proof.
  assert (H : create_invoice payload seed = (inr seed_response, seed_after))
    by (vm_compute; reflexivity).
  destruct (created_invoice_is_listed_last payload seed seed_response seed_after 10
              ltac:(lia) H) as (before & row & pg & Hl & Hid & _ & _ & _ & _ & Ht & _).
  exists before, row, pg. repeat split; assumption.
Defined.

(** X14. On a store that meets the constraints of the schema, every
    invoice that [list_invoices] shows can be fetched: [get_invoice]
    answers its id with the same number, dates and total, with a client of
    the store, and with one item for each row of [invoice_items] of the
    invoice, in their order, each with the name of a product of the store.
    The joins of [get_invoice] lose nothing. *)
Theorem listed_invoices_can_be_fetched s page page_size row :
  Store_inv s ->
  In row (rows_of (list_invoices page page_size s)) ->
  exists invoice,
    get_invoice (InvoiceSummary.id row) s = (inr invoice, s) /\
    InvoiceResponse.id invoice = InvoiceSummary.id row /\
    InvoiceResponse.invoice_no invoice = InvoiceSummary.invoice_no row /\
    InvoiceResponse.issue_date invoice = InvoiceSummary.issue_date row /\
    InvoiceResponse.due_date invoice = InvoiceSummary.due_date row /\
    InvoiceResponse.total invoice = InvoiceSummary.total row /\
    In (ClientRef.id (InvoiceResponse.client invoice)) (map ClientRow.id (clients s)) /\
    Forall2 (item_of_row (products s))
      (filter (fun ii => InvoiceItemRow.invoice_id ii =? InvoiceSummary.id row)
              (invoice_items s))
      (InvoiceResponse.items invoice).
Proof.
  intros Hinv Hrow. unfold list_invoices in Hrow. rewrite list_rows_eq in Hrow.
  unfold rows_of in Hrow. cbn [fst] in Hrow.
  apply in_map_iff in Hrow. destruct Hrow as (i & <- & Hi). apply In_page in Hi.
  destruct (get_invoice_of_row s i Hinv Hi) as (c & items & Hget & Hc & Hcid & Hitems).
  eexists. split; [exact Hget |]. cbn. repeat split; auto.
  now apply in_map.
Qed.

Lemma listed_invoices_can_be_fetched_witness :
  exists row invoice,
    In row (rows_of (list_invoices 1 20 seed_after)) /\
    get_invoice (InvoiceSummary.id row) seed_after = (inr invoice, seed_after) /\
    List.length (InvoiceResponse.items invoice) = 2%nat.
Proof.
  assert (Hinv : Store_inv seed_after).
  { exact (Store_inv_app (Post_invoices (payload_json "INV-001")) seed seed_inv). }
  assert (Hrow : In (invoice_summary (hd (InvoiceRow.mk 0 EmptyString EmptyString
                                            EmptyString 0 EmptyString zero zero)
                                         (invoices seed_after)))
                    (rows_of (list_invoices 1 20 seed_after))).
  { vm_compute. left. reflexivity. }
  destruct (listed_invoices_can_be_fetched seed_after 1 20 _ Hinv Hrow)
    as (invoice & Hget & _ & _ & _ & _ & _ & _ & Hitems).
  eexists _, invoice. split; [exact Hrow |]. split; [exact Hget |].
  apply Forall2_length in Hitems. rewrite <- Hitems. vm_compute. reflexivity.
Defined.








(** X19. [downgrade] is not all-or-nothing.  On a file without a
    [_migrations] table it drops the four tables and then raises
    "no such table: _migrations": the data is gone although the function
    failed. *)
Theorem downgrade_without_migrations_table d :
  _migrations d = None ->
  downgrade d = (inl (OperationalError "no such table: _migrations"), new_file) /\
  store_of (snd (downgrade d)) = None.
Proof.
  intros Hm.
  assert (H : downgrade d
              = (inl (OperationalError "no such table: _migrations"), new_file)).
  { unfold downgrade, andthen, drop_tables, delete_migration, no_such_table, new_file.
    cbn [_migrations]. rewrite Hm. reflexivity. }
  split; [exact H | now rewrite H].
Qed.

Lemma downgrade_without_migrations_table_witness :
  store_of unrecorded = Some seed /\
  downgrade unrecorded = (inl (OperationalError "no such table: _migrations"), new_file).
Proof.
  split; [vm_compute; reflexivity |].
  exact (proj1 (downgrade_without_migrations_table unrecorded eq_refl)).
Defined.

(** X20. What [get_migration_status] counts.  It never fails, and it
    creates the table [_migrations] when the file has none: a GET that
    writes.  [total] is the number of names that match the pattern,
    [applied] the number of recorded migrations, and [pending] their
    difference.  When the names of the files are distinct once [".py"] is
    removed, the number of migrations it marks "pending" is [pending] plus
    the number of recorded migrations that have no file: [pending] is too
    small, and can be negative, as soon as a recorded migration has lost
    its file. *)
Theorem migration_status_counts entries d :
  NoDup (map MigrationRow.name (Table.rows (or_empty (_migrations d)))) ->
  NoDup (map remove_py (filter is_migration_file entries)) ->
  exists report,
    get_migration_status entries d
    = (inr report,
       {| _migrations := Some (or_empty (_migrations d));
          products_table := products_table d; clients_table := clients_table d;
          invoices_table := invoices_table d;
          invoice_items_table := invoice_items_table d |}) /\
    MigrationReport.total report = len (filter is_migration_file entries) /\
    len (MigrationReport.migrations report) = MigrationReport.total report /\
    MigrationReport.applied report = len (Table.rows (or_empty (_migrations d))) /\
    MigrationReport.pending report
    = MigrationReport.total report - MigrationReport.applied report /\
    len (filter (fun m => String.eqb (MigrationStatus.status m) "pending")
                (MigrationReport.migrations report))
    = MigrationReport.pending report
      + len (filter (fun m => negb (mem (MigrationRow.name m)
                                      (map remove_py (filter is_migration_file entries))))
                    (Table.rows (or_empty (_migrations d)))).
Proof.
  intros Hrows Hfiles. rewrite get_migration_status_eq. cbv zeta.
  set (t := or_empty (_migrations d)) in *.
  set (rows := map (fun m => (MigrationRow.name m, MigrationRow.applied_at m))
                   (order_by MigrationRow.id (Table.rows t))).
  set (files := map remove_py (sorted (filter is_migration_file entries))).
  assert (Hkeys : Permutation (map fst rows) (map MigrationRow.name (Table.rows t))).
  { subst rows. rewrite map_map. cbn [fst]. apply order_by_map_perm. }
  assert (Hnd : NoDup (map fst rows)).
  { eapply Permutation_NoDup; [symmetry; exact Hkeys | exact Hrows]. }
  assert (Hpf : Permutation files (map remove_py (filter is_migration_file entries))).
  { subst files. apply Permutation_map, sorted_perm. }
  assert (Hndf : NoDup files).
  { eapply Permutation_NoDup; [symmetry; exact Hpf | exact Hfiles]. }
  rewrite (dict_of_unique rows Hnd).
  eexists. split; [reflexivity |].
  cbn [MigrationReport.total MigrationReport.migrations MigrationReport.applied
       MigrationReport.pending].
  unfold len. rewrite !length_map.
  assert (Hlen_files : List.length files
                      = List.length (filter is_migration_file entries)).
  { subst files. rewrite length_map. apply Permutation_length, sorted_perm. }
  assert (Hlen_rows : List.length rows = List.length (Table.rows t)).
  { subst rows. rewrite length_map. apply order_by_length. }
  rewrite Hlen_files, Hlen_rows.
  split; [reflexivity |]. split; [reflexivity |]. split; [reflexivity |].
  split; [reflexivity |].
  (* the entries marked pending are the names of files that are not recorded *)
  assert (Hpending :
    List.length (filter (fun m => String.eqb (MigrationStatus.status m) "pending")
                   (map (fun mig_name =>
                           MigrationStatus.mk mig_name
                             (if dict_in mig_name rows then "applied" else "pending")
                             (dict_get mig_name rows)) files))
    = List.length (filter (fun k => negb (mem k (map fst rows))) files)).
  { clear. induction files as [| k files IH]; [reflexivity |].
    assert (E : dict_in k rows = mem k (map fst rows)).
    { apply eq_true_iff_eq. rewrite dict_in_iff, mem_iff. reflexivity. }
    cbn [map filter MigrationStatus.status]. rewrite E.
    destruct (mem k (map fst rows)); cbn [negb]; simpl String.eqb; cbn [List.length];
      [exact IH | f_equal; exact IH]. }
  rewrite Hpending.
  rewrite (missing_count files (map fst rows) Hndf Hnd).
  rewrite length_map, Hlen_files, Hlen_rows.
  assert (Hmissing :
    List.length (filter (fun k => negb (mem k files)) (map fst rows))
    = List.length (filter (fun m => negb (mem (MigrationRow.name m)
                                            (map remove_py
                                               (filter is_migration_file entries))))
                          (Table.rows t))).
  { transitivity (List.length (filter (fun k => negb (mem k files))
                                 (map MigrationRow.name (Table.rows t)))).
    - apply Permutation_length.
      apply NoDup_Permutation.
      + now apply NoDup_filter.
      + now apply NoDup_filter.
      + intros k. rewrite !filter_In.
        split; intros [Hin Hk]; (split; [| exact Hk]);
          [eapply Permutation_in; [exact Hkeys | exact Hin]
          | eapply Permutation_in; [symmetry; exact Hkeys | exact Hin]].
    - clear -Hpf. induction (Table.rows t) as [| m l IH]; [reflexivity |].
      assert (E : mem (MigrationRow.name m) files
                  = mem (MigrationRow.name m)
                        (map remove_py (filter is_migration_file entries))).
      { apply eq_true_iff_eq. rewrite !mem_iff. split; intros H.
        - eapply Permutation_in; [exact Hpf | exact H].
        - eapply Permutation_in; [symmetry; exact Hpf | exact H]. }
      cbn [map filter]. rewrite E.
      destruct (mem (MigrationRow.name m) (map remove_py (filter is_migration_file entries)));
        cbn [negb List.length]; [exact IH | f_equal; exact IH]. }
  rewrite Hmissing. reflexivity.
Qed.

Lemma migration_status_counts_witness :
  exists report d',
    get_migration_status ["001_initial.py"; "README.md"]%string upgraded = (inr report, d') /\
    MigrationReport.pending report = 0 /\
    len (filter (fun m => String.eqb (MigrationStatus.status m) "pending")
                (MigrationReport.migrations report)) = 1.
Proof.
  assert (H1 : NoDup (map MigrationRow.name (Table.rows (or_empty (_migrations upgraded))))).
  { simpl. repeat constructor. intros []. }
  assert (H2 : NoDup (map remove_py
                        (filter is_migration_file ["001_initial.py"; "README.md"]%string))).
  { vm_compute. repeat constructor. intros []. }
  destruct (migration_status_counts ["001_initial.py"; "README.md"]%string upgraded H1 H2)
    as (report & Hget & Ht & _ & Ha & Hp & Hcount).
  exists report. eexists. split; [exact Hget |].
  assert (Hp0 : MigrationReport.pending report = 0).
  { rewrite Hp, Ht, Ha. vm_compute. reflexivity. }
  split; [exact Hp0 |]. rewrite Hcount, Hp0. vm_compute. reflexivity.
Defined.





